(** * solana-gasless-sdk: the [GaslessSDK] client class

    A shallow embedding of [GaslessSDK] (the SDK's only class) and of the
    records of [types.ts], with the properties its specification states.

    - JavaScript numbers are IEEE-754 binary64 values: Rocq's primitive
      [float], whose operations are the ones the engine runs.
    - JavaScript values that cross the HTTP boundary ([response.data], the
      fields of a result) are [jsval]s.
    - An [async] method is a computation in [Async]: it reads the world (the
      identity provider's current user, the network), appends to a log of
      observable effects (HTTP requests, console lines) and completes
      normally or by throwing. *)

From Stdlib Require Import ZArith Floats Bool List String Ascii Lia.
From Stdlib Require Uint63 DecimalString.
Import ListNotations.

Local Open Scope string_scope.

(** ** Numbers *)

Module Num.

(** The float nearest to the integer [z], for [0 <= z < 2^63]; it is [z]
    itself below 2^53. *)
Definition of_Z (z : Z) : float := PrimFloat.of_uint63 (Uint63.of_Z z).

(** [Math.floor]: NaN, the infinities and the zeros are returned as they
    are; a finite [x = (-1)^s * m * 2^e] with [e >= 0] is an integer already;
    otherwise the greatest integer below [x], which binary64 represents
    exactly ([Z.shiftr] rounds towards minus infinity, and a positive [x]
    below one gives [+0]). *)
Definition Math_floor (x : float) : float :=
  match Prim2SF x with
  | S754_finite s m e =>
      if (0 <=? e)%Z then x
      else SF2Prim (binary_normalize prec emax
                      (Z.shiftr (cond_Zopp s (Zpos m)) (- e)) 0 false)
  | _ => x
  end.

(** [x] is falsy as a condition: [0], [-0] and [NaN]. *)
Definition falsy (x : float) : bool := PrimFloat.is_zero x || PrimFloat.is_nan x.

(** The next three definitions serve the proofs about whole amounts.
    [pshl n j] is [n * 2^j] on positive numbers. *)
Definition pshl (n : positive) (j : nat) : positive := Nat.iter j xO n.

(** The binary64 number of value [(-1)^s * n * 2^e] for a mantissa [n] of at
    most 53 bits and an exponent in the normal range: the mantissa is
    shifted up to 53 bits. *)
Definition normal (s : bool) (n : positive) (e : Z) : spec_float :=
  let d := Zpos (digits2_pos n) in
  S754_finite s (pshl n (Z.to_nat (53 - d))) (e + d - 53).

(** Lamports in one SOL. *)
Definition lamports_per_sol : positive := 1000000000.

(** The integer [z] as a binary64 number, for |z| < 2^53. *)
Definition of_integer (z : Z) : spec_float :=
  match z with
  | Z0 => S754_zero false
  | Zpos n => normal false n 0
  | Zneg n => normal true n 0
  end.

(** The greatest integer below [(-1)^s * m * 2^e], for [e < 0]. *)
Definition floor_of (s : bool) (m : positive) (e : Z) : Z :=
  Z.shiftr (cond_Zopp s (Zpos m)) (- e).

(** For the proofs about rounding: the location [l] that the arithmetic
    keeps next to a truncated mantissa [m] is right for the exact value
    [A / B] ([B > 0]), which is [m] itself, or lies between [m] and
    [m + 1] below, at, or above the midpoint. *)
Definition located (m : Z) (l : location) (A B : Z) : Prop :=
  match l with
  | loc_Exact => A = (m * B)%Z
  | loc_Inexact Lt => (m * B < A /\ 2 * A < (2 * m + 1) * B)%Z
  | loc_Inexact Eq => (2 * A = (2 * m + 1) * B)%Z
  | loc_Inexact Gt => ((2 * m + 1) * B < 2 * A /\ A < (m + 1) * B)%Z
  end.

End Num.

(** ** Unit conversion (static methods) *)

(** [static solToLamports(sol) { return Math.floor(sol * 1e9); }] *)
Definition solToLamports (sol : float) : float :=
  Num.Math_floor (sol * 1e9)%float.

(** [static lamportsToSol(lamports) { return lamports / 1e9; }] *)
Definition lamportsToSol (lamports : float) : float :=
  (lamports / 1e9)%float.

(** ** JavaScript values *)

#[local] Set Warnings "-register-all".

Inductive jsval : Type :=
| JUndefined
| JNull
| JBool (b : bool)
| JNum (x : float)
| JStr (s : string)
| JArr (items : list jsval)
| JObj (fields : list (string * jsval)).

(** The condition [v] of [if (v)], [!v] and [v || w]. *)
Definition truthy (v : jsval) : bool :=
  match v with
  | JUndefined | JNull => false
  | JBool b => b
  | JNum x => negb (Num.falsy x)
  | JStr s => negb (s =? "")
  | JArr _ | JObj _ => true
  end.

(** [a || b] *)
Definition js_or (a b : jsval) : jsval := if truthy a then a else b.

(** The property [k] of an object literal. *)
Fixpoint lookup (k : string) (fields : list (string * jsval)) : option jsval :=
  match fields with
  | [] => None
  | (k', v) :: rest => if k' =? k then Some v else lookup k rest
  end.

(** ** Errors *)

(** A thrown value.  Everything this client catches is an Error object:
    its own [new Error(..)], the engine's [TypeError], the identity
    provider's errors and the HTTP library's, which alone carries a
    [response]. *)
Record js_error : Type := mk_error {
  err_name : string;
  err_message : string;
  err_response : jsval   (* [JUndefined] when the error has none *)
}.

Definition Error (message : string) : js_error :=
  mk_error "Error" message JUndefined.

Definition TypeError (message : string) : js_error :=
  mk_error "TypeError" message JUndefined.

(** How an engine names a nullish value in its TypeError message. *)
Definition nullish_name (v : jsval) : string :=
  match v with JNull => "null" | _ => "undefined" end.

(** [v.p]: reading a property of [undefined] or [null] throws; an object
    gives the property or [undefined]; a boolean, number, string or array
    has none of the properties this client reads. *)
Definition get_prop (v : jsval) (p : string) : js_error + jsval :=
  match v with
  | JUndefined | JNull =>
      inl (TypeError ("Cannot read properties of " ++ nullish_name v
                        ++ " (reading '" ++ p ++ "')"))
  | JObj fields =>
      inr (match lookup p fields with Some x => x | None => JUndefined end)
  | _ => inr JUndefined
  end.

(** [v?.p]: [undefined] on a nullish [v], [v.p] otherwise. *)
Definition opt_prop (v : jsval) (p : string) : jsval :=
  match get_prop v p with
  | inl _ => JUndefined
  | inr x => x
  end.

(** ** The HTTP library *)

Inductive http_method : Type := GET | POST.

Record request : Type := mk_request {
  req_method : http_method;
  req_url : string;
  req_body : option jsval;
  req_headers : list (string * string)
}.

(** What comes back for a request: a reply with a status and a body, or
    nothing (connection refused, timeout, ...), with the name and message
    of the error the library then rejects with: [AxiosError] and
    [Network Error] in a browser, those of the socket error under Node. *)
Inductive http_reply : Type :=
| Reply (status : Z) (data : jsval)
| NoReply (name message : string).

Record axios_response : Type := mk_response {
  resp_data : jsval;
  resp_status : Z
}.

Definition is_2xx (status : Z) : bool :=
  ((200 <=? status) && (status <? 300))%Z.

Definition status_text (status : Z) : string :=
  DecimalString.NilZero.string_of_int (Z.to_int status).

(** The library's default settling: a 2xx reply resolves the promise, any
    other reply rejects it with an error that carries the response, and no
    reply rejects it with an error that carries none. *)
Definition axios_settle (r : http_reply) : js_error + axios_response :=
  match r with
  | Reply status data =>
      if is_2xx status then inr (mk_response data status)
      else inl (mk_error "AxiosError"
                  ("Request failed with status code " ++ status_text status)
                  (JObj [("data", data); ("status", JNum (Num.of_Z status))]))
  | NoReply name message => inl (mk_error name message JUndefined)
  end.

(** ** The identity provider *)

Record FirebaseConfig : Type := mk_firebase_config {
  apiKey : string;
  authDomain : string;
  projectId : string;
  storageBucket : string;
  messagingSenderId : string;
  appId : string;
  measurementId : option string
}.

Record FirebaseApp : Type := initializeApp { app_options : FirebaseConfig }.
Record Auth : Type := getAuth { auth_app : FirebaseApp }.

(** A signed-in user; [getIdToken] is how the promise of [getIdToken()]
    settles: rejected with an error or resolved with the token. *)
Record User : Type := mk_user { getIdToken : js_error + string }.

(** ** The world a call runs in *)

(** [currentUser a] is [a.currentUser] at the time of the call ([None] for
    [null]).  [relayer earlier r] is what comes back for the request [r]
    when the requests [earlier] were sent before it during the call: a
    second attempt may be answered differently from the first. *)
Record world : Type := mk_world {
  currentUser : Auth -> option User;
  relayer : list request -> request -> http_reply
}.

Inductive event : Type :=
| Http (r : request)
| ConsoleError (label : string) (e : js_error).

Definition requests_of (log : list event) : list request :=
  flat_map (fun ev => match ev with Http r => [r] | ConsoleError _ _ => [] end) log.

(** ** Asynchronous computations *)

(** How a computation completes: [return a] or [throw e]. *)
Inductive completion (A : Type) : Type :=
| Normal (a : A)
| Throw (e : js_error).
Arguments Normal {A} a.
Arguments Throw {A} e.

(** A computation reads the world and extends the log (oldest event first). *)
Definition Async (A : Type) : Type :=
  world -> list event -> list event * completion A.

Definition ret {A} (a : A) : Async A := fun _ log => (log, Normal a).

Definition throw {A} (e : js_error) : Async A := fun _ log => (log, Throw e).

Definition bind {A B} (m : Async A) (k : A -> Async B) : Async B :=
  fun w log =>
    match m w log with
    | (log', Normal a) => k a w log'
    | (log', Throw e) => (log', Throw e)
    end.

(** [try { body } catch (error) { handler }] *)
Definition try_catch {A} (body : Async A) (handler : js_error -> Async A) : Async A :=
  fun w log =>
    match body w log with
    | (log', Normal a) => (log', Normal a)
    | (log', Throw e) => handler e w log'
    end.

Declare Scope async_scope.
Delimit Scope async_scope with async.
Notation "x <- m ;; k" := (bind m (fun x => k))
  (at level 61, m at next level, right associativity) : async_scope.
Notation "m ;;; k" := (bind m (fun _ => k))
  (at level 61, right associativity) : async_scope.
Notation "'try' body 'catch' handler" := (try_catch body handler)
  (at level 62, body at level 61, handler at level 61) : async_scope.

Definition lift {A} (r : js_error + A) : Async A :=
  match r with
  | inl e => throw e
  | inr a => ret a
  end.

(** [await a.currentUser?.getIdToken()]: [undefined] ([None]) without a
    current user, else the settled promise. *)
Definition token_of (w : world) (a : Auth) : js_error + option string :=
  match currentUser w a with
  | None => inr None
  | Some u =>
      match getIdToken u with
      | inl e => inl e
      | inr token => inr (Some token)
      end
  end.

Definition await_idToken (a : Auth) : Async (option string) :=
  fun w log =>
    (log,
     match token_of w a with
     | inl e => Throw e
     | inr token => Normal token
     end).

(** [!token] for a token that is a string or [undefined]. *)
Definition no_token (token : option string) : bool :=
  match token with
  | None => true
  | Some t => t =? ""
  end.

(** The token inside [`Bearer ${token}`]. *)
Definition token_text (token : option string) : string :=
  match token with
  | None => "undefined"
  | Some t => t
  end.

(** One request: it is logged, sent, and the promise settles on what comes
    back. *)
Definition axios_request (r : request) : Async axios_response :=
  fun w log =>
    ((log ++ [Http r])%list,
     match axios_settle (relayer w (requests_of log) r) with
     | inl e => Throw e
     | inr response => Normal response
     end).

(** [axios.get(url, { headers })] *)
Definition axios_get (url : string) (headers : list (string * string))
  : Async axios_response :=
  axios_request (mk_request GET url None headers).

(** [axios.post(url, body, { headers })] *)
Definition axios_post (url : string) (body : jsval) (headers : list (string * string))
  : Async axios_response :=
  axios_request (mk_request POST url (Some body) headers).

(** [console.error(label, error)] *)
Definition console_error (label : string) (e : js_error) : Async unit :=
  fun _ log => ((log ++ [ConsoleError label e])%list, Normal tt).

(** ** Records of types.ts *)

Record GaslessSDKConfig : Type := mk_config {
  cfg_relayerUrl : option string;           (* [relayerUrl?: string] *)
  cfg_firebaseConfig : FirebaseConfig
}.

(** A field is [None] when the object has no such key. *)
Record TransactionResult : Type := mk_result {
  success : bool;
  signature : option jsval;
  recipient : option jsval;
  lamports : option jsval;
  error : option jsval
}.

(** ** The class *)

Record GaslessSDK : Type := mk_sdk {
  relayerUrl : string;
  firebaseApp : FirebaseApp;
  auth : Auth
}.

Definition default_relayerUrl : string := "https://relayer-backend.onrender.com".

(** [config.relayerUrl || 'https://relayer-backend.onrender.com'] *)
Definition relayerUrl_or_default (u : option string) : string :=
  match u with
  | None => default_relayerUrl
  | Some url => if url =? "" then default_relayerUrl else url
  end.

Definition constructor (config : GaslessSDKConfig) : GaslessSDK :=
  let app := initializeApp (cfg_firebaseConfig config) in
  mk_sdk (relayerUrl_or_default (cfg_relayerUrl config)) app (getAuth app).

Definition bearer (token : option string) : list (string * string) :=
  [("Authorization", "Bearer " ++ token_text token)].

Local Open Scope async_scope.

Definition getWallet (this : GaslessSDK) : Async jsval :=
  try
    (token <- await_idToken (auth this) ;;
     (if no_token token then throw (Error "User not authenticated") else ret tt) ;;;
     response <- axios_get (relayerUrl this ++ "/me") (bearer token) ;;
     lift (get_prop (resp_data response) "publicKey"))
  catch
    (fun error =>
       console_error "Error getting wallet:" error ;;;
       ret JNull).

Definition sendTransaction (this : GaslessSDK) (recipientAddress : string)
    (lamports : float) : Async TransactionResult :=
  try
    (token <- await_idToken (auth this) ;;
     (if no_token token then throw (Error "User not authenticated") else ret tt) ;;;
     response <- axios_post (relayerUrl this ++ "/relay")
                   (JObj [("to", JStr recipientAddress); ("lamports", JNum lamports)])
                   (bearer token) ;;
     signature <- lift (get_prop (resp_data response) "signature") ;;
     recipient <- lift (get_prop (resp_data response) "recipient") ;;
     lamports <- lift (get_prop (resp_data response) "lamports") ;;
     ret (mk_result true (Some signature) (Some recipient) (Some lamports) None))
  catch
    (fun error =>
       ret (mk_result false None None None
              (Some (js_or (opt_prop (opt_prop (err_response error) "data") "message")
                           (JStr (err_message error)))))).

Definition getTransactionHistory (this : GaslessSDK) : Async jsval :=
  try
    (token <- await_idToken (auth this) ;;
     (if no_token token then throw (Error "User not authenticated") else ret tt) ;;;
     response <- axios_get (relayerUrl this ++ "/transactions") (bearer token) ;;
     lift (get_prop (resp_data response) "transactions"))
  catch
    (fun error =>
       console_error "Error getting transaction history:" error ;;;
       ret (JArr [])).

Local Close Scope async_scope.

(** [getCurrentUser() { return this.auth.currentUser; }] *)
Definition getCurrentUser (this : GaslessSDK) (w : world) : option User :=
  currentUser w (auth this).

(** ** Vocabulary of the specification *)

(** The calling user holds the token [t]: there is a current user, the
    token lookup resolves, and the token is not the empty string. *)
Definition authenticated_with (w : world) (a : Auth) (t : string) : Prop :=
  token_of w a = inr (Some t) /\ t <> "".

(** The token lookup yields a usable token. *)
Definition has_token (w : world) (a : Auth) : bool :=
  match token_of w a with
  | inl _ => false
  | inr token => negb (no_token token)
  end.

(** The round trip did not end in a 2xx reply. *)
Definition failed_reply (r : http_reply) : bool :=
  match r with
  | Reply status _ => negb (is_2xx status)
  | NoReply _ _ => true
  end.

(** The requests of the three calls, for a token [t]. *)
Definition me_request (this : GaslessSDK) (t : string) : request :=
  mk_request GET (relayerUrl this ++ "/me") None
    [("Authorization", "Bearer " ++ t)].

Definition relay_request (this : GaslessSDK) (t : string)
    (recipientAddress : string) (lamports : float) : request :=
  mk_request POST (relayerUrl this ++ "/relay")
    (Some (JObj [("to", JStr recipientAddress); ("lamports", JNum lamports)]))
    [("Authorization", "Bearer " ++ t)].

Definition transactions_request (this : GaslessSDK) (t : string) : request :=
  mk_request GET (relayerUrl this ++ "/transactions") None
    [("Authorization", "Bearer " ++ t)].

(** The result the [catch] block of [sendTransaction] builds from [e]. *)
Definition failure (e : js_error) : TransactionResult :=
  mk_result false None None None
    (Some (js_or (opt_prop (opt_prop (err_response e) "data") "message")
                 (JStr (err_message e)))).

(** The result [sendTransaction] builds from a settled request. *)
Definition transfer_result (settled : js_error + axios_response) : TransactionResult :=
  match settled with
  | inl e => failure e
  | inr response =>
      match get_prop (resp_data response) "signature",
            get_prop (resp_data response) "recipient",
            get_prop (resp_data response) "lamports" with
      | inr s, inr r, inr l => mk_result true (Some s) (Some r) (Some l) None
      | inl e, _, _ | _, inl e, _ | _, _, inl e => failure e
      end
  end.

(** What a lookup ([getWallet], [getTransactionHistory]) does with a settled
    request: the value read from the body, or the error it hands to [catch]. *)
Definition lookup_result (field : string) (settled : js_error + axios_response)
  : js_error + jsval :=
  match settled with
  | inl e => inl e
  | inr response => get_prop (resp_data response) field
  end.

Definition not_authenticated : js_error := Error "User not authenticated".

(** Two worlds that differ at most in how the relayer would answer a
    request that follows another one within the call. *)
Definition same_round_trip (w w' : world) (a : Auth) (log : list event) : Prop :=
  token_of w' a = token_of w a /\
  forall r, relayer w' (requests_of log) r = relayer w (requests_of log) r.

(** The console lines of a log, oldest first. *)
Definition console_of (log : list event) : list (string * js_error) :=
  flat_map (fun ev => match ev with
                      | Http _ => []
                      | ConsoleError label e => [(label, e)]
                      end) log.

(** [v] is [undefined] or [null]. *)
Definition nullish (v : jsval) : bool :=
  match v with
  | JUndefined | JNull => true
  | _ => false
  end.

(** The round trip makes the [try] block throw: nothing comes back, the
    reply is not 2xx, or it is 2xx with a body that is [null] or
    [undefined], of which no field can be read. *)
Definition failed_round_trip (r : http_reply) : bool :=
  match r with
  | Reply status data => negb (is_2xx status) || nullish data
  | NoReply _ _ => true
  end.

(** ** Concrete inputs *)

Module Sample.

Definition config : GaslessSDKConfig :=
  mk_config None
    (mk_firebase_config "api-key" "app.example.com" "app" "app.bucket" "1" "1:web" None).

Definition sdk : GaslessSDK := constructor config.

(** Nobody is signed in; the network is down as well. *)
Definition signed_out : world :=
  mk_world (fun _ => None) (fun _ _ => NoReply "AxiosError" "Network Error").

(** A signed-in user whose token is [id-token]; the relayer answers every
    request with [reply]. *)
Definition signed_in (reply : http_reply) : world :=
  mk_world (fun _ => Some (mk_user (inr "id-token"))) (fun _ _ => reply).

(** A relayer that refuses the first request of a call and would accept a
    second one. *)
Definition flaky : world :=
  mk_world (fun _ => Some (mk_user (inr "id-token")))
    (fun earlier _ =>
       match earlier with
       | [] => Reply 503 (JObj [("message", JStr "Service Unavailable")])
       | _ :: _ => Reply 200 (JObj [("signature", JStr "5xSig");
                                    ("publicKey", JStr "9xKey");
                                    ("transactions", JArr [])])
       end).

(** A relayer that refuses every request. *)
Definition refusing : world :=
  mk_world (fun _ => Some (mk_user (inr "id-token")))
    (fun _ _ => Reply 503 (JObj [("message", JStr "Service Unavailable")])).

Definition rate_limited : http_reply :=
  Reply 429 (JObj [("message", JStr "Too many requests")]).

Definition empty_message : http_reply :=
  Reply 400 (JObj [("message", JStr "")]).

Definition empty_history : http_reply :=
  Reply 200 (JObj [("transactions", JArr [])]).

Definition recipient : string := "7xKXtg2CW87d97TXJSDpbD5jBkheTqA83TZRuJosgAsU".

Definition refresh_error : js_error :=
  mk_error "FirebaseError" "Firebase: Error (auth/network-request-failed)."
    JUndefined.

(** A signed-in user whose token cannot be refreshed. *)
Definition expired : world :=
  mk_world (fun _ => Some (mk_user (inl refresh_error)))
    (fun _ _ => empty_history).

(** A signed-in user whose token is the empty string. *)
Definition blank_token : world :=
  mk_world (fun _ => Some (mk_user (inr ""))) (fun _ _ => empty_history).

Definition bad_gateway : http_reply :=
  Reply 502 (JStr "<html><body>Bad Gateway</body></html>").

Definition no_content : http_reply := Reply 204 (JStr "").

Definition null_body : http_reply := Reply 200 JNull.

Definition empty_object : http_reply := Reply 200 (JObj []).

End Sample.

(** ** How each call runs *)

Lemma no_token_some (t : string) : t <> "" -> no_token (Some t) = false.
Proof.
  intros Ht. simpl. destruct (String.eqb_spec t ""); congruence.
Qed.

Lemma requests_of_app (l1 l2 : list event) :
  requests_of (l1 ++ l2) = (requests_of l1 ++ requests_of l2)%list.
Proof.
  unfold requests_of. apply flat_map_app.
Qed.

(** [sendTransaction] in one equation: the token lookup, then at most one
    request, whose settling decides the result. *)
Lemma sendTransaction_run this recipientAddress lamports w log :
  sendTransaction this recipientAddress lamports w log =
  match token_of w (auth this) with
  | inl e => (log, Normal (failure e))
  | inr token =>
      if no_token token then (log, Normal (failure not_authenticated))
      else
        let r := relay_request this (token_text token) recipientAddress lamports in
        ((log ++ [Http r])%list,
         Normal (transfer_result (axios_settle (relayer w (requests_of log) r))))
  end.
Proof.
  unfold sendTransaction, try_catch, bind, await_idToken, axios_post,
    axios_request, transfer_result, relay_request, bearer.
  destruct (token_of w (auth this)) as [e | token]; [reflexivity |].
  destruct (no_token token); [reflexivity |].
  cbn.
  destruct (axios_settle _) as [e | response]; [reflexivity |].
  destruct (resp_data response); reflexivity.
Qed.

(** The two lookups share their shape. *)
Lemma getWallet_run this w log :
  getWallet this w log =
  let caught e :=
    ((log ++ [ConsoleError "Error getting wallet:" e])%list, Normal JNull) in
  match token_of w (auth this) with
  | inl e => caught e
  | inr token =>
      if no_token token then caught not_authenticated
      else
        let r := me_request this (token_text token) in
        match lookup_result "publicKey" (axios_settle (relayer w (requests_of log) r)) with
        | inl e =>
            ((log ++ [Http r; ConsoleError "Error getting wallet:" e])%list,
             Normal JNull)
        | inr v => ((log ++ [Http r])%list, Normal v)
        end
  end.
Proof.
  unfold getWallet, try_catch, bind, await_idToken, axios_get, axios_request,
    lookup_result, me_request, bearer, console_error.
  destruct (token_of w (auth this)) as [e | token]; [reflexivity |].
  destruct (no_token token); [reflexivity |].
  cbn.
  destruct (axios_settle _) as [e | response]; cbn.
  - now rewrite <- app_assoc.
  - destruct (get_prop _ _); cbn; [now rewrite <- app_assoc | reflexivity].
Qed.

Lemma getTransactionHistory_run this w log :
  getTransactionHistory this w log =
  let caught e :=
    ((log ++ [ConsoleError "Error getting transaction history:" e])%list,
     Normal (JArr [])) in
  match token_of w (auth this) with
  | inl e => caught e
  | inr token =>
      if no_token token then caught not_authenticated
      else
        let r := transactions_request this (token_text token) in
        match lookup_result "transactions" (axios_settle (relayer w (requests_of log) r)) with
        | inl e =>
            ((log ++ [Http r; ConsoleError "Error getting transaction history:" e])%list,
             Normal (JArr []))
        | inr v => ((log ++ [Http r])%list, Normal v)
        end
  end.
Proof.
  unfold getTransactionHistory, try_catch, bind, await_idToken, axios_get,
    axios_request, lookup_result, transactions_request, bearer, console_error.
  destruct (token_of w (auth this)) as [e | token]; [reflexivity |].
  destruct (no_token token); [reflexivity |].
  cbn.
  destruct (axios_settle _) as [e | response]; cbn.
  - now rewrite <- app_assoc.
  - destruct (get_prop _ _); cbn; [now rewrite <- app_assoc | reflexivity].
Qed.

Lemma failed_reply_settles (r : http_reply) :
  failed_reply r = true -> exists e, axios_settle r = inl e.
Proof.
  destruct r as [status data | name message]; simpl.
  - intros H. apply negb_true_iff in H. rewrite H. eauto.
  - eauto.
Qed.

Lemma has_token_false (w : world) (a : Auth) :
  has_token w a = false ->
  (exists e, token_of w a = inl e) \/
  (exists token, token_of w a = inr token /\ no_token token = true).
Proof.
  unfold has_token. destruct (token_of w a) as [e | token].
  - eauto.
  - intros H. apply negb_false_iff in H. eauto.
Qed.

Lemma authenticated_token w a t :
  authenticated_with w a t ->
  token_of w a = inr (Some t) /\ no_token (Some t) = false.
Proof.
  intros [Htok Ht]. split; [exact Htok | now apply no_token_some].
Qed.

(** ** Binary64 arithmetic on whole amounts

    [x * 1e9] and [x / 1e9] are correctly rounded; when the exact result
    is an integer below 2^53 there is nothing to round.  The operations are
    followed through their specification in [SpecFloat]. *)

Module Binary64.

Import Num.

(** *** Shifts and bit lengths *)

(** The value of a shifted number, and its bit length. *)
Lemma pshl_val n j : Zpos (pshl n j) = (Zpos n * 2 ^ Z.of_nat j)%Z.
Proof.
  induction j as [| j IH].
  - cbn. lia.
  - change (pshl n (S j)) with (xO (pshl n j)).
    rewrite Pos2Z.inj_xO, IH, Nat2Z.inj_succ, Z.pow_succ_r by lia. ring.
Qed.

Lemma pshl_add n a b : pshl (pshl n a) b = pshl n (a + b).
Proof.
  unfold pshl. rewrite Nat.add_comm. symmetry. apply Nat.iter_add.
Qed.

Lemma pshl_iter n d : Pos.iter xO n d = pshl n (Pos.to_nat d).
Proof.
  unfold pshl. rewrite Pos2Nat.inj_iter. reflexivity.
Qed.

Lemma digits_pshl n j :
  Zpos (digits2_pos (pshl n j)) = (Zpos (digits2_pos n) + Z.of_nat j)%Z.
Proof.
  induction j as [| j IH].
  - cbn. lia.
  - change (pshl n (S j)) with (xO (pshl n j)).
    cbn [digits2_pos]. rewrite Pos2Z.inj_succ, IH. lia.
Qed.

(** [digits2_pos p] is the bit length of [p]. *)
Lemma pow2_succ_pos d : (2 ^ Zpos (Pos.succ d) = 2 * 2 ^ Zpos d)%Z.
Proof.
  replace (Zpos (Pos.succ d)) with (Z.succ (Zpos d)) by lia.
  apply Z.pow_succ_r. lia.
Qed.

Lemma pow2_succ_pos_pred d : (2 ^ (Zpos (Pos.succ d) - 1) = 2 * 2 ^ (Zpos d - 1))%Z.
Proof.
  replace (Zpos (Pos.succ d) - 1)%Z with (Z.succ (Zpos d - 1)) by lia.
  apply Z.pow_succ_r. lia.
Qed.

Lemma digits_bounds p :
  (2 ^ (Zpos (digits2_pos p) - 1) <= Zpos p < 2 ^ Zpos (digits2_pos p))%Z.
Proof.
  induction p as [p IH | p IH |]; cbn [digits2_pos].
  - rewrite pow2_succ_pos, pow2_succ_pos_pred. lia.
  - rewrite pow2_succ_pos, pow2_succ_pos_pred. lia.
  - cbn. lia.
Qed.

Lemma digits_le_of_lt_pow p b :
  (0 <= b)%Z -> (Zpos p < 2 ^ b)%Z -> (Zpos (digits2_pos p) <= b)%Z.
Proof.
  intros Hb Hp.
  destruct (digits_bounds p) as [Hlo _].
  assert (H : (2 ^ (Zpos (digits2_pos p) - 1) < 2 ^ b)%Z) by lia.
  apply Z.pow_lt_mono_r_iff in H; lia.
Qed.

Lemma digits_mono p q :
  (Zpos p <= Zpos q)%Z -> (Zpos (digits2_pos p) <= Zpos (digits2_pos q))%Z.
Proof.
  intros Hpq. apply digits_le_of_lt_pow; [lia |].
  destruct (digits_bounds q). lia.
Qed.

(** *** Shifting zeros out loses nothing *)

(** [iter_pos] iterates as [Nat.iter] does. *)
Lemma iter_pos_nat {A} (f : A -> A) p x :
  iter_pos f p x = Nat.iter (Pos.to_nat p) f x.
Proof.
  revert x. induction p as [p IH | p IH |]; intros x; cbn [iter_pos].
  - rewrite !IH, Pos2Nat.inj_xI. cbn [Nat.iter Nat.mul].
    rewrite Nat.add_0_r, <- Nat.iter_add, <- Nat.iter_succ_r. reflexivity.
  - rewrite !IH, Pos2Nat.inj_xO. cbn [Nat.mul].
    rewrite Nat.add_0_r, <- Nat.iter_add. reflexivity.
  - reflexivity.
Qed.

(** Shifting [n * 2^j] right [j] times sets neither the round bit nor the
    sticky bit. *)
Lemma shr_exact n j :
  Nat.iter j shr_1 (Build_shr_record (Zpos (pshl n j)) false false)
  = Build_shr_record (Zpos n) false false.
Proof.
  induction j as [| j IH].
  - reflexivity.
  - rewrite Nat.iter_succ_r. change (pshl n (S j)) with (xO (pshl n j)).
    cbn [shr_1 orb]. exact IH.
Qed.

(** Aligning a mantissa [n * 2^j] whose value fits 53 bits drops zeros
    only. *)
Lemma shr_fexp_exact n (j : nat) E :
  let d := Zpos (digits2_pos n) in
  (d <= 53 <= d + Z.of_nat j)%Z ->
  (-1074 <= E + d + Z.of_nat j - 53)%Z ->
  shr_fexp prec emax (Zpos (pshl n j)) E loc_Exact
  = (Build_shr_record (Zpos (pshl n (Z.to_nat (53 - d)))) false false,
     (E + d + Z.of_nat j - 53)%Z).
Proof.
  intros d Hd HE.
  unfold shr_fexp, shr_record_of_loc, Zdigits2, fexp, emin, prec, emax.
  rewrite digits_pshl. fold d.
  replace (Z.max (d + Z.of_nat j + E - 53) (3 - 1024 - 53) - E)%Z
    with (d + Z.of_nat j - 53)%Z by lia.
  destruct (d + Z.of_nat j - 53)%Z as [| sh | sh] eqn:Hsh; [| | lia].
  - cbn [shr]. f_equal; [| lia].
    do 2 f_equal. f_equal. lia.
  - cbn [shr]. rewrite iter_pos_nat.
    replace j with (Z.to_nat (53 - d) + Pos.to_nat sh)%nat at 1 by lia.
    rewrite <- pshl_add, shr_exact. f_equal. lia.
Qed.

(** *** Exact rounding *)

(** Rounding [n * 2^j * 2^E] with [n] of at most 53 bits is exact. *)
Lemma round_exact s n (j : nat) E :
  let d := Zpos (digits2_pos n) in
  (d <= 53 <= d + Z.of_nat j)%Z ->
  (-1074 <= E + Z.of_nat j + d - 53 <= 971)%Z ->
  binary_round_aux prec emax s (Zpos (pshl n j)) E loc_Exact
  = normal s n (E + Z.of_nat j).
Proof.
  intros d Hd HE.
  unfold binary_round_aux.
  rewrite shr_fexp_exact by (fold d; lia). fold d.
  cbn [shr_m loc_of_shr_record round_nearest_even].
  rewrite shr_fexp_exact by (fold d; lia). fold d.
  cbn [shr_m].
  unfold prec, emax, normal. fold d.
  replace (E + d + Z.of_nat j - 53 + d + Z.of_nat (Z.to_nat (53 - d)) - 53)%Z
    with (E + Z.of_nat j + d - 53)%Z by lia.
  destruct (Z.leb_spec (E + Z.of_nat j + d - 53) (1024 - 53)); [reflexivity | lia].
Qed.

Lemma pshl_zero n : pshl n 0 = n.
Proof. reflexivity. Qed.

(** An integer of at most 53 bits is a binary64 number. *)
Lemma normalize_integer n :
  (Zpos (digits2_pos n) <= 53)%Z ->
  binary_normalize prec emax (Zpos n) 0 false = normal false n 0.
Proof.
  intros Hd. set (d := Zpos (digits2_pos n)) in *.
  unfold binary_normalize, binary_round, shl_align, fexp, emin, prec, emax.
  fold d.
  replace (Z.max (d + 0 - 53) (3 - 1024 - 53) - 0)%Z with (d - 53)%Z by lia.
  destruct (d - 53)%Z as [| a | a] eqn:Ha; [| lia |].
  - rewrite <- (pshl_zero n) at 1.
    change (binary_round_aux 53 1024) with (binary_round_aux prec emax).
    rewrite round_exact by (fold d; lia). reflexivity.
  - rewrite pshl_iter.
    change (binary_round_aux 53 1024) with (binary_round_aux prec emax).
    rewrite round_exact by (fold d; lia).
    unfold normal. fold d. f_equal. lia.
Qed.

(** The floor of an integer is the integer. *)
Lemma floor_integer (x : float) (n : positive) :
  (Zpos (digits2_pos n) <= 53)%Z ->
  Prim2SF x = normal false n 0 ->
  Math_floor x = x.
Proof.
  intros Hd Hx. unfold Math_floor. rewrite Hx. unfold normal.
  set (d := Zpos (digits2_pos n)) in *.
  destruct (Z.leb_spec 0 (0 + d - 53)); [reflexivity |].
  cbn [cond_Zopp]. rewrite pshl_val, Z.shiftr_div_pow2 by lia.
  replace (- (0 + d - 53))%Z with (Z.of_nat (Z.to_nat (53 - d))) by lia.
  rewrite Z.div_mul by (apply Z.pow_nonzero; lia).
  rewrite normalize_integer by exact Hd.
  rewrite <- Hx. apply SF2Prim_Prim2SF.
Qed.

(** *** Multiplying and dividing by 1e9 *)

(** [1e9] has 30 bits, so [k * 1e9] has between [d] and [d + 30] bits when
    [k] has [d]. *)
Lemma digits_lamports_per_sol : digits2_pos lamports_per_sol = 30%positive.
Proof. reflexivity. Qed.

Lemma digits_le_lamports k :
  (Zpos (digits2_pos k) <= Zpos (digits2_pos (k * lamports_per_sol)))%Z.
Proof.
  apply digits_mono. unfold lamports_per_sol. lia.
Qed.

Lemma digits_lamports_le k :
  (Zpos (digits2_pos (k * lamports_per_sol)) <= Zpos (digits2_pos k) + 30)%Z.
Proof.
  apply digits_le_of_lt_pow; [lia |].
  destruct (digits_bounds k) as [_ Hk].
  rewrite Z.pow_add_r by lia.
  unfold lamports_per_sol. rewrite Pos2Z.inj_mul.
  change (2 ^ 30)%Z with 1073741824%Z.
  nia.
Qed.

Section WholeSol.

Variable k : positive.
Let N : positive := (k * lamports_per_sol)%positive.
Hypothesis HN : (Zpos (digits2_pos N) <= 53)%Z.

(** [k * 1e9] is computed exactly. *)
Lemma mul_lamports_per_sol :
  SFmul prec emax (normal false k 0) (normal false lamports_per_sol 0)
  = normal false N 0.
Proof.
  pose proof (digits_le_lamports k) as Hk. fold N in Hk.
  unfold normal at 1 2. rewrite digits_lamports_per_sol.
  set (d := Zpos (digits2_pos k)) in *.
  cbn [SFmul xorb].
  replace (pshl k (Z.to_nat (53 - d)) * pshl lamports_per_sol (Z.to_nat (53 - 30)))%positive
    with (pshl N (Z.to_nat (53 - d) + 23)).
  2:{ apply Pos2Z.inj. rewrite Pos2Z.inj_mul, !pshl_val.
      unfold N. rewrite Pos2Z.inj_mul, Nat2Z.inj_add, Z.pow_add_r by lia.
      change (Z.of_nat (Z.to_nat (53 - 30))) with (Z.of_nat 23). ring. }
  rewrite round_exact by lia.
  f_equal. lia.
Qed.

(** The quotient of [k * 1e9] by [1e9], computed with 53 extra bits, has no
    remainder. *)
Lemma div_core_lamports_per_sol :
  let d := Zpos (digits2_pos N) in
  SFdiv_core_binary prec emax
    (Zpos (pshl N (Z.to_nat (53 - d)))) (0 + d - 53)
    (Zpos (pshl lamports_per_sol 23)) (-23)
  = (Zpos (pshl k (Z.to_nat (83 - d))), (d - 83)%Z, loc_Exact).
Proof.
  intros d. fold d in HN.
  pose proof (digits_lamports_le k) as HNk. fold N in HNk. fold d in HNk.
  unfold SFdiv_core_binary, Zdigits2.
  rewrite !digits_pshl, digits_lamports_per_sol. fold d.
  unfold fexp, emin, prec, emax.
  replace (Z.min
             (Z.max (d + Z.of_nat (Z.to_nat (53 - d)) + (0 + d - 53)
                     - (30 + Z.of_nat 23 + -23) - 53) (3 - 1024 - 53))
             (0 + d - 53 - -23))%Z
    with (d - 83)%Z by lia.
  replace (0 + d - 53 - -23 - (d - 83))%Z with 53%Z by lia.
  rewrite Z.shiftl_mul_pow2 by lia.
  set (q := Zpos (pshl k (Z.to_nat (83 - d)))).
  set (m2 := Zpos (pshl lamports_per_sol 23)).
  assert (Hq : (Zpos (pshl N (Z.to_nat (53 - d))) * 2 ^ 53 = q * m2)%Z).
  { unfold q, m2. rewrite !pshl_val. unfold N. rewrite Pos2Z.inj_mul.
    replace (Z.of_nat (Z.to_nat (83 - d))) with (Z.of_nat (Z.to_nat (53 - d)) + 30)%Z by lia.
    rewrite Z.pow_add_r by lia.
    change (Z.of_nat 23) with 23%Z.
    change (2 ^ 53)%Z with (2 ^ 30 * 2 ^ 23)%Z. ring. }
  rewrite Hq.
  assert (Hdiv : Z.div_eucl (q * m2) m2 = (q, 0%Z)).
  { pose proof (Z.div_mul q m2) as Hd. pose proof (Z.mod_mul q m2) as Hm.
    unfold Z.div, Z.modulo in Hd, Hm.
    destruct (Z.div_eucl (q * m2) m2) as [q' r'].
    cbn [fst snd] in Hd, Hm. rewrite Hd, Hm by (unfold m2; lia). reflexivity. }
  rewrite Hdiv. reflexivity.
Qed.

(** [(k * 1e9) / 1e9] is computed exactly. *)
Lemma div_lamports_per_sol :
  SFdiv prec emax (normal false N 0) (normal false lamports_per_sol 0)
  = normal false k 0.
Proof.
  pose proof (digits_le_lamports k) as Hk. pose proof (digits_lamports_le k) as HNk. fold N in Hk, HNk.
  unfold normal at 1 2. rewrite digits_lamports_per_sol.
  cbn [SFdiv xorb].
  change (Z.to_nat (53 - 30)) with 23%nat. change (0 + 30 - 53)%Z with (-23)%Z.
  rewrite div_core_lamports_per_sol.
  rewrite round_exact by lia.
  f_equal. lia.
Qed.

End WholeSol.

(** *** Primitive floats *)

(** The float of a positive integer of at most 53 bits, and the literal
    [1e9]. *)
Lemma of_Z_normal (n : positive) :
  (Zpos (digits2_pos n) <= 53)%Z ->
  Prim2SF (of_Z (Zpos n)) = normal false n 0.
Proof.
  intros Hd. unfold of_Z.
  rewrite of_uint63_spec, Uint63.of_Z_spec, Z.mod_small.
  - now apply normalize_integer.
  - destruct (digits_bounds n) as [_ Hn].
    assert (2 ^ Zpos (digits2_pos n) <= 2 ^ 53)%Z by (apply Z.pow_le_mono_r; lia).
    change Uint63.wB with (2 ^ 63)%Z.
    assert (2 ^ 53 < 2 ^ 63)%Z by reflexivity. lia.
Qed.

Lemma Prim2SF_1e9 : Prim2SF 1e9 = normal false lamports_per_sol 0.
Proof. reflexivity. Qed.

End Binary64.

(** ** Unit conversion *)

(** [Math.floor] on a few arguments: halves, a negative, an integer, the
    zeros, NaN and the infinities. *)
Example Math_floor_values :
  Num.Math_floor 0.5 = 0%float /\
  Num.Math_floor (-0.5) = (-1)%float /\
  Num.Math_floor 2.5 = 2%float /\
  Num.Math_floor (-2.5) = (-3)%float /\
  Num.Math_floor 1000000000 = 1000000000%float /\
  Num.Math_floor (-0) = (-0)%float /\
  Num.Math_floor nan = nan /\
  Num.Math_floor infinity = infinity /\
  Num.Math_floor neg_infinity = neg_infinity.
Proof.
  repeat split; vm_compute; reflexivity.
Qed.

(** On whole SOL amounts [k] whose lamports stay below 2^53 (up to 9007199
    SOL) the conversions are exact and inverse to each other:
    [solToLamports(k) = k * 1e9], [lamportsToSol(k * 1e9) = k], and both
    round trips return what they were given. *)
Lemma whole_sol_round_trip (k : Z) :
  (0 <= k <= 9007199)%Z ->
  let sol := Num.of_Z k in
  let lamports := Num.of_Z (k * 1000000000) in
  solToLamports sol = lamports /\
  lamportsToSol lamports = sol /\
  lamportsToSol (solToLamports sol) = sol /\
  solToLamports (lamportsToSol lamports) = lamports.
Proof.
  intros Hk sol lamports.
  assert (H : solToLamports sol = lamports /\ lamportsToSol lamports = sol).
  { subst sol lamports.
    destruct k as [| p | p]; [split; reflexivity | | lia].
    assert (HN : (Zpos (digits2_pos (p * Num.lamports_per_sol)) <= 53)%Z).
    { apply Binary64.digits_le_of_lt_pow; [lia |].
      unfold Num.lamports_per_sol.
      change (2 ^ 53)%Z with 9007199254740992%Z. lia. }
    assert (Hp : (Zpos (digits2_pos p) <= 53)%Z).
    { pose proof (Binary64.digits_le_lamports p). lia. }
    change (Zpos p * 1000000000)%Z with (Zpos (p * Num.lamports_per_sol)).
    assert (Hmul : (Num.of_Z (Zpos p) * 1e9)%float
                   = Num.of_Z (Zpos (p * Num.lamports_per_sol))).
    { apply Prim2SF_inj.
      rewrite mul_spec, Binary64.Prim2SF_1e9, !Binary64.of_Z_normal by assumption.
      now apply Binary64.mul_lamports_per_sol. }
    split.
    - unfold solToLamports. rewrite Hmul.
      apply (Binary64.floor_integer _ (p * Num.lamports_per_sol)%positive);
        [exact HN |].
      now apply Binary64.of_Z_normal.
    - unfold lamportsToSol. apply Prim2SF_inj.
      rewrite div_spec, Binary64.Prim2SF_1e9, !Binary64.of_Z_normal by assumption.
      now apply Binary64.div_lamports_per_sol. }
  destruct H as [Hto Hfrom]. repeat split; congruence.
Qed.


(** C2. One whole unit is the fixed constant of minor units, and the
    constant converts back to one: [solToLamports(1) = 1000000000] and
    [lamportsToSol(1000000000) = 1]. *)
Theorem C2_one_sol_is_1e9_lamports :
  solToLamports 1 = 1000000000%float /\ lamportsToSol 1000000000 = 1%float.
Proof.
  split; vm_compute; reflexivity.
Qed.

(** ** Failures of a transfer *)

(** C3, as amended.  When the relayer refuses a transfer (a reply that is
    not 2xx, which the HTTP library turns into the error [e]), the result
    is [{success: false, error}] where [error] is the body's [message],
    untouched, if that is truthy (a non-empty string, for one), and the
    thrown error's own message [e.message] if the body has no message or a
    falsy one. *)
Theorem C3_error_of_a_refused_transfer
    this recipientAddress amount w log t status data e :
  authenticated_with w (auth this) t ->
  relayer w (requests_of log) (relay_request this t recipientAddress amount)
    = Reply status data ->
  axios_settle (Reply status data) = inl e ->
  snd (sendTransaction this recipientAddress amount w log)
    = Normal (mk_result false None None None
                (Some (if truthy (opt_prop data "message")
                       then opt_prop data "message"
                       else JStr (err_message e)))).
Proof.
  intros Hauth Hreply Hsettle.
  destruct (authenticated_token _ _ _ Hauth) as [Htok Hno].
  rewrite sendTransaction_run, Htok, Hno. cbn [token_text snd]. cbv zeta.
  rewrite Hreply, Hsettle. cbn [transfer_result].
  unfold axios_settle in Hsettle.
  destruct (is_2xx status); [discriminate |].
  injection Hsettle as <-.
  unfold failure, js_or. cbn [err_response err_message].
  replace (opt_prop (JObj [("data", data); ("status", JNum (Num.of_Z status))]) "data")
    with data by reflexivity.
  reflexivity.
Qed.

Lemma C3_error_of_a_refused_transfer_witness :
  snd (sendTransaction Sample.sdk Sample.recipient 1000000000
         (Sample.signed_in Sample.rate_limited) [])
  = Normal (mk_result false None None None (Some (JStr "Too many requests"))).
Proof.
  apply (C3_error_of_a_refused_transfer Sample.sdk Sample.recipient 1000000000
           (Sample.signed_in Sample.rate_limited) [] "id-token" 429
           (JObj [("message", JStr "Too many requests")])
           (mk_error "AxiosError" "Request failed with status code 429"
              (JObj [("data", JObj [("message", JStr "Too many requests")]);
                     ("status", JNum 429)]))).
  - split; [reflexivity | discriminate].
  - reflexivity.
  - reflexivity.
Defined.

(** C3 as stated fails when the server's message is the empty string: the
    relayer answers 400 with [{message: ''}], and the result's [error] is
    the HTTP library's own message instead. *)
Lemma C3_counterexample :
  relayer (Sample.signed_in Sample.empty_message) []
    (relay_request Sample.sdk "id-token" Sample.recipient 1000000000)
    = Reply 400 (JObj [("message", JStr "")]) /\
  snd (sendTransaction Sample.sdk Sample.recipient 1000000000
         (Sample.signed_in Sample.empty_message) [])
    = Normal (mk_result false None None None
                (Some (JStr "Request failed with status code 400"))) /\
  JStr "Request failed with status code 400" <> JStr "".
Proof.
  split; [reflexivity |]. split; [vm_compute; reflexivity | discriminate].
Qed.



(** ** Calls without a signed-in user *)

(** C5, as amended.  Without a current user every call stops before any
    request is sent, on the same internal error [User not authenticated]:
    [sendTransaction] returns it as [{success: false, error}], while
    [getWallet] returns [null] and [getTransactionHistory] returns [[]],
    the error going to the console only. *)
Theorem C5_not_authenticated this recipientAddress amount w log :
  currentUser w (auth this) = None ->
  sendTransaction this recipientAddress amount w log
    = (log, Normal (mk_result false None None None
                      (Some (JStr "User not authenticated")))) /\
  getWallet this w log
    = ((log ++ [ConsoleError "Error getting wallet:"
                  (Error "User not authenticated")])%list,
       Normal JNull) /\
  getTransactionHistory this w log
    = ((log ++ [ConsoleError "Error getting transaction history:"
                  (Error "User not authenticated")])%list,
       Normal (JArr [])).
Proof.
  intros Hnone.
  rewrite sendTransaction_run, getWallet_run, getTransactionHistory_run.
  unfold token_of. rewrite Hnone. repeat split.
Qed.

Lemma C5_not_authenticated_witness :
  sendTransaction Sample.sdk Sample.recipient 1000000000 Sample.signed_out []
    = ([], Normal (mk_result false None None None
                     (Some (JStr "User not authenticated")))) /\
  getWallet Sample.sdk Sample.signed_out []
    = ([ConsoleError "Error getting wallet:" (Error "User not authenticated")],
       Normal JNull) /\
  getTransactionHistory Sample.sdk Sample.signed_out []
    = ([ConsoleError "Error getting transaction history:"
          (Error "User not authenticated")],
       Normal (JArr [])).
Proof.
  apply (C5_not_authenticated Sample.sdk Sample.recipient 1000000000
           Sample.signed_out []).
  reflexivity.
Defined.

(** C5 as stated fails for the two lookups: what they return to a caller
    who is not signed in says nothing about authentication.  The history
    of a signed-out caller is the [[]] a signed-in user with no transfers
    gets, and the wallet is the [null] a signed-in user gets when the
    relayer refuses. *)
Lemma C5_counterexample :
  currentUser Sample.signed_out (auth Sample.sdk) = None /\
  has_token (Sample.signed_in Sample.empty_history) (auth Sample.sdk) = true /\
  snd (getTransactionHistory Sample.sdk Sample.signed_out [])
    = snd (getTransactionHistory Sample.sdk (Sample.signed_in Sample.empty_history) []) /\
  has_token Sample.refusing (auth Sample.sdk) = true /\
  snd (getWallet Sample.sdk Sample.signed_out [])
    = snd (getWallet Sample.sdk Sample.refusing []).
Proof.
  repeat split.
Qed.

(** ** Calls of a signed-in user *)

(** The requests a signed-in user's calls add to the log. *)
Lemma authenticated_requests this recipientAddress amount w log t :
  authenticated_with w (auth this) t ->
  requests_of (fst (getWallet this w log))
    = (requests_of log ++ [me_request this t])%list /\
  fst (sendTransaction this recipientAddress amount w log)
    = (log ++ [Http (relay_request this t recipientAddress amount)])%list /\
  requests_of (fst (getTransactionHistory this w log))
    = (requests_of log ++ [transactions_request this t])%list.
Proof.
  intros Hauth.
  destruct (authenticated_token _ _ _ Hauth) as [Htok Hno].
  rewrite sendTransaction_run, getWallet_run, getTransactionHistory_run.
  rewrite Htok, Hno. cbn [token_text]. cbv zeta.
  repeat split.
  - destruct (lookup_result "publicKey" _); cbn [fst];
      rewrite requests_of_app; reflexivity.
  - destruct (lookup_result "transactions" _); cbn [fst];
      rewrite requests_of_app; reflexivity.
Qed.

(** C6. For a signed-in user with token [t], each of the three calls sends
    a request whose headers are [Authorization: Bearer t]. *)
Theorem C6_bearer_token_attached this recipientAddress amount w log t :
  authenticated_with w (auth this) t ->
  let sent := map req_headers (requests_of log) in
  let header := [("Authorization", "Bearer " ++ t)] in
  map req_headers (requests_of (fst (getWallet this w log)))
    = (sent ++ [header])%list /\
  map req_headers
    (requests_of (fst (sendTransaction this recipientAddress amount w log)))
    = (sent ++ [header])%list /\
  map req_headers (requests_of (fst (getTransactionHistory this w log)))
    = (sent ++ [header])%list.
Proof.
  intros Hauth sent header.
  destruct (authenticated_requests this recipientAddress amount w log t Hauth)
    as (Hme & Hrelay & Htxs).
  rewrite Hme, Hrelay, Htxs, requests_of_app, !map_app. repeat split.
Qed.

Lemma C6_bearer_token_attached_witness :
  map req_headers
    (requests_of (fst (getWallet Sample.sdk (Sample.signed_in Sample.empty_history) [])))
    = [[("Authorization", "Bearer id-token")]] /\
  map req_headers
    (requests_of (fst (sendTransaction Sample.sdk Sample.recipient 1000000000
                         (Sample.signed_in Sample.empty_history) [])))
    = [[("Authorization", "Bearer id-token")]] /\
  map req_headers
    (requests_of (fst (getTransactionHistory Sample.sdk
                         (Sample.signed_in Sample.empty_history) [])))
    = [[("Authorization", "Bearer id-token")]].
Proof.
  apply (C6_bearer_token_attached Sample.sdk Sample.recipient 1000000000
           (Sample.signed_in Sample.empty_history) [] "id-token").
  split; [reflexivity | discriminate].
Defined.

(** C7. There is no local limit on a transfer: whatever the recipient and
    the amount, the call of a signed-in user sends exactly one request to
    [/relay] that carries them as they were given. *)
Theorem C7_no_local_validation this recipientAddress amount w log t :
  authenticated_with w (auth this) t ->
  fst (sendTransaction this recipientAddress amount w log)
  = (log ++ [Http (mk_request POST (relayerUrl this ++ "/relay")%string
                     (Some (JObj [("to", JStr recipientAddress);
                                  ("lamports", JNum amount)]))
                     [("Authorization", ("Bearer " ++ t)%string)])])%list.
Proof.
  intros Hauth.
  apply (authenticated_requests this recipientAddress amount w log t Hauth).
Qed.

(** Sixteen SOL, above the 15 SOL the README allows per transfer. *)
Lemma C7_no_local_validation_witness :
  fst (sendTransaction Sample.sdk Sample.recipient (solToLamports 16)
         (Sample.signed_in Sample.rate_limited) [])
  = [Http (mk_request POST "https://relayer-backend.onrender.com/relay"
             (Some (JObj [("to", JStr Sample.recipient);
                          ("lamports", JNum 16000000000)]))
             [("Authorization", "Bearer id-token")])].
Proof.
  apply (C7_no_local_validation Sample.sdk Sample.recipient (solToLamports 16)
           (Sample.signed_in Sample.rate_limited) [] "id-token").
  split; [reflexivity | discriminate].
Defined.

(** ** One round trip per call *)

(** C8. A call sends at most one request, and what it returns and logs is
    decided by the token lookup and by what comes back for that one
    request: two worlds that differ only in how a later request of the
    same call would be answered are indistinguishable, so nothing is ever
    sent again after a failure. *)
Theorem C8_single_round_trip this recipientAddress amount w w' log :
  same_round_trip w w' (auth this) log ->
  (List.length (requests_of (fst (getWallet this w log)))
     <= S (List.length (requests_of log)) /\
   List.length (requests_of (fst (sendTransaction this recipientAddress amount w log)))
     <= S (List.length (requests_of log)) /\
   List.length (requests_of (fst (getTransactionHistory this w log)))
     <= S (List.length (requests_of log)))%nat /\
  getWallet this w' log = getWallet this w log /\
  sendTransaction this recipientAddress amount w' log
    = sendTransaction this recipientAddress amount w log /\
  getTransactionHistory this w' log = getTransactionHistory this w log.
Proof.
  intros [Htok Hreply].
  rewrite !sendTransaction_run, !getWallet_run, !getTransactionHistory_run.
  rewrite Htok. cbv zeta.
  destruct (token_of w (auth this)) as [e | token].
  { cbn [fst]. rewrite !requests_of_app, !length_app. cbn. repeat split; lia. }
  destruct (no_token token).
  { cbn [fst]. rewrite !requests_of_app, !length_app. cbn. repeat split; lia. }
  rewrite !Hreply.
  split; [| repeat split].
  repeat split.
  - destruct (lookup_result "publicKey" _); cbn [fst];
      rewrite requests_of_app, length_app; cbn; lia.
  - cbn [fst]. rewrite requests_of_app, length_app. cbn. lia.
  - destruct (lookup_result "transactions" _); cbn [fst];
      rewrite requests_of_app, length_app; cbn; lia.
Qed.

(** The relayer of [Sample.flaky] would accept a second request; the one of
    [Sample.refusing] would not.  No call can tell them apart. *)
Lemma C8_single_round_trip_witness :
  (List.length (requests_of (fst (getWallet Sample.sdk Sample.refusing []))) <= 1 /\
   List.length (requests_of (fst (sendTransaction Sample.sdk Sample.recipient 1000000000
                               Sample.refusing []))) <= 1 /\
   List.length (requests_of (fst (getTransactionHistory Sample.sdk Sample.refusing [])))
     <= 1)%nat /\
  getWallet Sample.sdk Sample.flaky [] = getWallet Sample.sdk Sample.refusing [] /\
  sendTransaction Sample.sdk Sample.recipient 1000000000 Sample.flaky []
    = sendTransaction Sample.sdk Sample.recipient 1000000000 Sample.refusing [] /\
  getTransactionHistory Sample.sdk Sample.flaky []
    = getTransactionHistory Sample.sdk Sample.refusing [].
Proof.
  apply (C8_single_round_trip Sample.sdk Sample.recipient 1000000000
           Sample.refusing Sample.flaky []).
  split; [reflexivity | intros r; reflexivity].
Defined.

(** ** Totality of a transfer *)

Lemma transfer_result_shape (settled : js_error + axios_response) :
  (exists s r l, transfer_result settled = mk_result true (Some s) (Some r) (Some l) None)
  \/ (exists e, transfer_result settled = mk_result false None None None (Some e)).
Proof.
  destruct settled as [e | response]; cbn.
  - right. eexists. reflexivity.
  - destruct (get_prop (resp_data response) "signature") as [e1 | s];
      destruct (get_prop (resp_data response) "recipient") as [e2 | r];
      destruct (get_prop (resp_data response) "lamports") as [e3 | l];
      try (right; eexists; reflexivity).
    left. do 3 eexists. reflexivity.
Qed.

(** C9. [sendTransaction] always completes normally, with a result that is
    either a success without an [error] key or a failure without
    [signature], [recipient] and [lamports] keys. *)
Theorem C9_sendTransaction_total this recipientAddress amount w log :
  exists res,
    snd (sendTransaction this recipientAddress amount w log) = Normal res /\
    (success res = true -> error res = None) /\
    (success res = false ->
     signature res = None /\ recipient res = None /\ lamports res = None).
Proof.
  rewrite sendTransaction_run.
  destruct (token_of w (auth this)) as [e | token].
  { eexists. split; [reflexivity |]. cbn. split; [discriminate | auto]. }
  destruct (no_token token).
  { eexists. split; [reflexivity |]. cbn. split; [discriminate | auto]. }
  cbv zeta. cbn [snd].
  destruct (transfer_result_shape
              (axios_settle
                 (relayer w (requests_of log)
                    (relay_request this (token_text token) recipientAddress amount))))
    as [(s & r & l & ->) | (e & ->)];
    eexists; (split; [reflexivity |]); cbn; split; auto; discriminate.
Qed.

(** ** The relayer endpoint *)

(** C10. A configuration without [relayerUrl], or with an empty one, gives
    the endpoint [https://relayer-backend.onrender.com]; and the three
    calls of a signed-in user go to [/me], [/relay] and [/transactions]
    under the endpoint of the instance. *)
Theorem C10_endpoint_and_paths config recipientAddress amount w log t :
  authenticated_with w (auth (constructor config)) t ->
  let this := constructor config in
  let sent := map req_url (requests_of log) in
  (cfg_relayerUrl config = None \/ cfg_relayerUrl config = Some "" ->
   relayerUrl this = "https://relayer-backend.onrender.com") /\
  map req_url (requests_of (fst (getWallet this w log)))
    = (sent ++ [(relayerUrl this ++ "/me")%string])%list /\
  map req_url (requests_of (fst (sendTransaction this recipientAddress amount w log)))
    = (sent ++ [(relayerUrl this ++ "/relay")%string])%list /\
  map req_url (requests_of (fst (getTransactionHistory this w log)))
    = (sent ++ [(relayerUrl this ++ "/transactions")%string])%list.
Proof.
  intros Hauth this sent.
  destruct (authenticated_requests this recipientAddress amount w log t Hauth)
    as (Hme & Hrelay & Htxs).
  split.
  - intros [Hnone | Hempty]; unfold this, constructor; cbn [relayerUrl].
    + now rewrite Hnone.
    + now rewrite Hempty.
  - rewrite Hme, Hrelay, Htxs, requests_of_app, !map_app. repeat split.
Qed.

Lemma C10_endpoint_and_paths_witness :
  relayerUrl Sample.sdk = "https://relayer-backend.onrender.com" /\
  map req_url (requests_of (fst (getWallet Sample.sdk
                                   (Sample.signed_in Sample.empty_history) [])))
    = ["https://relayer-backend.onrender.com/me"] /\
  map req_url (requests_of (fst (sendTransaction Sample.sdk Sample.recipient 1000000000
                                   (Sample.signed_in Sample.empty_history) [])))
    = ["https://relayer-backend.onrender.com/relay"] /\
  map req_url (requests_of (fst (getTransactionHistory Sample.sdk
                                   (Sample.signed_in Sample.empty_history) [])))
    = ["https://relayer-backend.onrender.com/transactions"].
Proof.
  destruct (C10_endpoint_and_paths Sample.config Sample.recipient 1000000000
              (Sample.signed_in Sample.empty_history) [] "id-token")
    as (Hdefault & Hcalls).
  - split; [reflexivity | discriminate].
  - split; [apply Hdefault; left; reflexivity | exact Hcalls].
Defined.

(** ** Further behaviour of the calls *)

Lemma get_prop_present (v : jsval) (p : string) :
  nullish v = false -> get_prop v p = inr (opt_prop v p).
Proof.
  destruct v; cbn; intros H; try discriminate; reflexivity.
Qed.

Lemma get_prop_nullish (v : jsval) (p : string) :
  nullish v = true -> exists message, get_prop v p = inl (TypeError message).
Proof.
  destruct v; cbn; intros H; try discriminate; eexists; reflexivity.
Qed.

Lemma failure_without_response (e : js_error) :
  err_response e = JUndefined ->
  failure e = mk_result false None None None (Some (JStr (err_message e))).
Proof.
  intros H. unfold failure. rewrite H. reflexivity.
Qed.

Lemma requests_of_console (log : list event) label e :
  requests_of (log ++ [ConsoleError label e]) = requests_of log.
Proof.
  rewrite requests_of_app. cbn. apply app_nil_r.
Qed.

Lemma console_of_app (l1 l2 : list event) :
  console_of (l1 ++ l2) = (console_of l1 ++ console_of l2)%list.
Proof.
  unfold console_of. apply flat_map_app.
Qed.

(** X1. No request leaves the client unless [getCurrentUser()] is a user
    whose token lookup resolves with a non-empty token: if any of the three
    calls adds a request to the log, such a user is signed in. *)
Theorem X1_requests_need_a_token this recipientAddress amount w log :
  requests_of (fst (getWallet this w log)) <> requests_of log \/
  requests_of (fst (sendTransaction this recipientAddress amount w log))
    <> requests_of log \/
  requests_of (fst (getTransactionHistory this w log)) <> requests_of log ->
  exists u t,
    getCurrentUser this w = Some u /\ getIdToken u = inr t /\ t <> "".
Proof.
  rewrite sendTransaction_run, getWallet_run, getTransactionHistory_run.
  unfold getCurrentUser, token_of.
  destruct (currentUser w (auth this)) as [u |].
  2:{ cbn [no_token fst]. rewrite !requests_of_console.
      intros [H | [H | H]]; congruence. }
  destruct (getIdToken u) as [e | t] eqn:Htok.
  { cbn [fst]. rewrite !requests_of_console. intros [H | [H | H]]; congruence. }
  cbn [no_token]. destruct (String.eqb_spec t "") as [-> | Hne].
  { cbn [fst]. rewrite !requests_of_console. intros [H | [H | H]]; congruence. }
  intros _. exists u, t. repeat split; auto.
Qed.

Lemma X1_requests_need_a_token_witness :
  exists u t,
    getCurrentUser Sample.sdk (Sample.signed_in Sample.empty_history) = Some u /\
    getIdToken u = inr t /\ t <> "".
Proof.
  apply (X1_requests_need_a_token Sample.sdk Sample.recipient 1000000000
           (Sample.signed_in Sample.empty_history) []).
  left. discriminate.
Defined.

(** X2. A user whose token is the empty string is treated as signed out:
    no request is sent, [sendTransaction] returns
    [{success: false, error: 'User not authenticated'}], [getWallet]
    returns [null] and [getTransactionHistory] returns [[]], each lookup
    logging the error. *)
Theorem X2_empty_token_is_signed_out this recipientAddress amount w log u :
  getCurrentUser this w = Some u ->
  getIdToken u = inr "" ->
  sendTransaction this recipientAddress amount w log
    = (log, Normal (mk_result false None None None
                      (Some (JStr "User not authenticated")))) /\
  getWallet this w log
    = ((log ++ [ConsoleError "Error getting wallet:"
                  (Error "User not authenticated")])%list,
       Normal JNull) /\
  getTransactionHistory this w log
    = ((log ++ [ConsoleError "Error getting transaction history:"
                  (Error "User not authenticated")])%list,
       Normal (JArr [])).
Proof.
  unfold getCurrentUser. intros Hu Htok.
  rewrite sendTransaction_run, getWallet_run, getTransactionHistory_run.
  unfold token_of. rewrite Hu, Htok. repeat split.
Qed.

Lemma X2_empty_token_is_signed_out_witness :
  sendTransaction Sample.sdk Sample.recipient 1000000000 Sample.blank_token []
    = ([], Normal (mk_result false None None None
                     (Some (JStr "User not authenticated")))) /\
  getWallet Sample.sdk Sample.blank_token []
    = ([ConsoleError "Error getting wallet:" (Error "User not authenticated")],
       Normal JNull) /\
  getTransactionHistory Sample.sdk Sample.blank_token []
    = ([ConsoleError "Error getting transaction history:"
          (Error "User not authenticated")],
       Normal (JArr [])).
Proof.
  apply (X2_empty_token_is_signed_out Sample.sdk Sample.recipient 1000000000
           Sample.blank_token [] (mk_user (inr ""))); reflexivity.
Defined.

(** X3. When the token lookup of the current user is rejected with an error
    that carries no response (the identity provider's errors carry none),
    nothing is sent: [sendTransaction] returns the provider's message as
    [error], and the lookups return [null] and [[]] after logging the
    provider's error. *)
Theorem X3_rejected_token_lookup this recipientAddress amount w log u e :
  getCurrentUser this w = Some u ->
  getIdToken u = inl e ->
  err_response e = JUndefined ->
  sendTransaction this recipientAddress amount w log
    = (log, Normal (mk_result false None None None (Some (JStr (err_message e))))) /\
  getWallet this w log
    = ((log ++ [ConsoleError "Error getting wallet:" e])%list, Normal JNull) /\
  getTransactionHistory this w log
    = ((log ++ [ConsoleError "Error getting transaction history:" e])%list,
       Normal (JArr [])).
Proof.
  unfold getCurrentUser. intros Hu Htok Hresp.
  rewrite sendTransaction_run, getWallet_run, getTransactionHistory_run.
  unfold token_of. rewrite Hu, Htok.
  rewrite failure_without_response by exact Hresp. repeat split.
Qed.

Lemma X3_rejected_token_lookup_witness :
  sendTransaction Sample.sdk Sample.recipient 1000000000 Sample.expired []
    = ([], Normal (mk_result false None None None
                     (Some (JStr "Firebase: Error (auth/network-request-failed)."))))
  /\
  getWallet Sample.sdk Sample.expired []
    = ([ConsoleError "Error getting wallet:" Sample.refresh_error], Normal JNull) /\
  getTransactionHistory Sample.sdk Sample.expired []
    = ([ConsoleError "Error getting transaction history:" Sample.refresh_error],
       Normal (JArr [])).
Proof.
  apply (X3_rejected_token_lookup Sample.sdk Sample.recipient 1000000000
           Sample.expired [] (mk_user (inl Sample.refresh_error))
           Sample.refresh_error); reflexivity.
Defined.

(** X4. When the request of a transfer is rejected with an error whose
    response carries no truthy [data.message] (no reply at all, a body that
    is not an object, an object without [message]), the result's [error] is
    the thrown error's own message. *)
Theorem X4_error_message_fallback this recipientAddress amount w log t e :
  authenticated_with w (auth this) t ->
  axios_settle (relayer w (requests_of log)
                  (relay_request this t recipientAddress amount)) = inl e ->
  truthy (opt_prop (opt_prop (err_response e) "data") "message") = false ->
  snd (sendTransaction this recipientAddress amount w log)
    = Normal (mk_result false None None None (Some (JStr (err_message e)))).
Proof.
  intros Hauth Hsettle Hfalsy.
  destruct (authenticated_token _ _ _ Hauth) as [Htok Hno].
  rewrite sendTransaction_run, Htok, Hno. cbn [token_text snd]. cbv zeta.
  rewrite Hsettle. unfold transfer_result, failure, js_or.
  now rewrite Hfalsy.
Qed.

Lemma X4_error_message_fallback_witness :
  snd (sendTransaction Sample.sdk Sample.recipient 1000000000
         (Sample.signed_in Sample.bad_gateway) [])
  = Normal (mk_result false None None None
              (Some (JStr "Request failed with status code 502"))).
Proof.
  apply (X4_error_message_fallback Sample.sdk Sample.recipient 1000000000
           (Sample.signed_in Sample.bad_gateway) [] "id-token"
           (mk_error "AxiosError" "Request failed with status code 502"
              (JObj [("data", JStr "<html><body>Bad Gateway</body></html>");
                     ("status", JNum 502)]))).
  - split; [reflexivity | discriminate].
  - reflexivity.
  - reflexivity.
Defined.

(** X5. Every 2xx reply whose body is neither [null] nor [undefined] is a
    success, and the result copies [signature], [recipient] and [lamports]
    from the body, [undefined] for a field the body lacks: the fields come
    from the relayer, not from the arguments of the call. *)
Theorem X5_success_copies_the_reply this recipientAddress amount w log t status data :
  authenticated_with w (auth this) t ->
  relayer w (requests_of log) (relay_request this t recipientAddress amount)
    = Reply status data ->
  is_2xx status = true ->
  nullish data = false ->
  snd (sendTransaction this recipientAddress amount w log)
    = Normal (mk_result true
                (Some (opt_prop data "signature"))
                (Some (opt_prop data "recipient"))
                (Some (opt_prop data "lamports"))
                None).
Proof.
  intros Hauth Hreply Hstatus Hdata.
  destruct (authenticated_token _ _ _ Hauth) as [Htok Hno].
  rewrite sendTransaction_run, Htok, Hno. cbn [token_text snd]. cbv zeta.
  rewrite Hreply. unfold axios_settle. rewrite Hstatus.
  unfold transfer_result. cbn [resp_data].
  rewrite !get_prop_present by exact Hdata. reflexivity.
Qed.

(** A 204 with an empty body: a success without a signature. *)
Lemma X5_success_copies_the_reply_witness :
  snd (sendTransaction Sample.sdk Sample.recipient 1000000000
         (Sample.signed_in Sample.no_content) [])
  = Normal (mk_result true (Some JUndefined) (Some JUndefined) (Some JUndefined) None).
Proof.
  apply (X5_success_copies_the_reply Sample.sdk Sample.recipient 1000000000
           (Sample.signed_in Sample.no_content) [] "id-token" 204 (JStr "")).
  - split; [reflexivity | discriminate].
  - reflexivity.
  - reflexivity.
  - reflexivity.
Defined.



(** What a lookup returns after a 2xx reply with a body. *)
Lemma lookup_result_present field status data :
  is_2xx status = true ->
  nullish data = false ->
  lookup_result field (axios_settle (Reply status data))
  = inr (opt_prop data field).
Proof.
  intros Hstatus Hdata. unfold axios_settle. rewrite Hstatus.
  cbn [lookup_result resp_data]. now apply get_prop_present.
Qed.





(** X9. [getWallet] and [getTransactionHistory] never throw: whatever the
    token lookup and the network do, they complete normally. *)
Theorem X9_lookups_never_throw this w log :
  (exists v, snd (getWallet this w log) = Normal v) /\
  (exists v, snd (getTransactionHistory this w log) = Normal v).
Proof.
  rewrite getWallet_run, getTransactionHistory_run.
  destruct (token_of w (auth this)) as [e | token].
  { split; eexists; reflexivity. }
  destruct (no_token token).
  { split; eexists; reflexivity. }
  cbv zeta. split.
  - destruct (lookup_result "publicKey" _); eexists; reflexivity.
  - destruct (lookup_result "transactions" _); eexists; reflexivity.
Qed.

(** X10. [sendTransaction] never writes to the console: its failures reach
    the caller in the result only. *)
Theorem X10_sendTransaction_is_silent this recipientAddress amount w log :
  console_of (fst (sendTransaction this recipientAddress amount w log))
  = console_of log.
Proof.
  rewrite sendTransaction_run.
  destruct (token_of w (auth this)) as [e | token]; [reflexivity |].
  destruct (no_token token); [reflexivity |].
  cbv zeta. cbn [fst]. rewrite console_of_app. cbn. apply app_nil_r.
Qed.

(** X11. A lookup writes at most one console line, under its own label, and
    only when it returns its default: either the console is untouched, or
    it gains the one line and the result is [null] (for [getWallet]) or
    [[]] (for [getTransactionHistory]). *)
Theorem X11_lookups_log_their_failure this w log :
  (console_of (fst (getWallet this w log)) = console_of log \/
   exists e,
     console_of (fst (getWallet this w log))
       = (console_of log ++ [("Error getting wallet:", e)])%list /\
     snd (getWallet this w log) = Normal JNull) /\
  (console_of (fst (getTransactionHistory this w log)) = console_of log \/
   exists e,
     console_of (fst (getTransactionHistory this w log))
       = (console_of log ++ [("Error getting transaction history:", e)])%list /\
     snd (getTransactionHistory this w log) = Normal (JArr [])).
Proof.
  rewrite getWallet_run, getTransactionHistory_run.
  destruct (token_of w (auth this)) as [e | token].
  { split; right; exists e; cbn [fst snd]; rewrite console_of_app; split; reflexivity. }
  destruct (no_token token).
  { split; right; exists not_authenticated; cbn [fst snd];
      rewrite console_of_app; split; reflexivity. }
  cbv zeta. split.
  - destruct (lookup_result "publicKey" _) as [e | v]; cbn [fst snd].
    + right. exists e. rewrite console_of_app. split; reflexivity.
    + left. rewrite console_of_app. cbn. apply app_nil_r.
  - destruct (lookup_result "transactions" _) as [e | v]; cbn [fst snd].
    + right. exists e. rewrite console_of_app. split; reflexivity.
    + left. rewrite console_of_app. cbn. apply app_nil_r.
Qed.

(** ** More on the constructor *)

(** X12. The endpoint of an instance is never empty, and a non-empty
    [relayerUrl] of the configuration is kept as it is written (no
    trimming, no trailing-slash handling). *)
Theorem X12_endpoint_is_never_empty config :
  relayerUrl (constructor config) <> "" /\
  (forall url, cfg_relayerUrl config = Some url -> url <> "" ->
               relayerUrl (constructor config) = url).
Proof.
  unfold constructor. cbn [relayerUrl]. unfold relayerUrl_or_default.
  destruct (cfg_relayerUrl config) as [u |].
  - destruct (String.eqb_spec u "") as [-> | Hne].
    + split; [discriminate | intros url Hurl Hne; congruence].
    + split; [exact Hne | intros url Hurl _; congruence].
  - split; [discriminate | intros url Hurl; discriminate].
Qed.

(** ** More on unit conversion

    [Math.floor] on every binary64 number, through [SpecFloat]. *)

Module Floor.

Import Num Binary64.

(** A valid finite binary64 has a mantissa of at most 53 bits, of exactly 53
    unless the exponent is the least one. *)
Lemma valid_finite s m e :
  valid_binary (S754_finite s m e) = true ->
  (Zpos (digits2_pos m) <= 53)%Z /\
  (Zpos (digits2_pos m) = 53 \/ e = -1074)%Z /\
  (-1074 <= e <= 971)%Z.
Proof.
  cbn [SpecFloat.valid_binary]. unfold bounded, canonical_mantissa, fexp, emin, prec, emax.
  intros H. apply andb_true_iff in H. destruct H as [Hc He].
  apply Z.eqb_eq in Hc. apply Z.leb_le in He. lia.
Qed.

Lemma normal_valid s n :
  (Zpos (digits2_pos n) <= 53)%Z ->
  valid_binary (normal s n 0) = true.
Proof.
  intros Hd. unfold normal. cbn [SpecFloat.valid_binary].
  unfold bounded, canonical_mantissa, fexp, emin, prec, emax.
  rewrite digits_pshl.
  apply andb_true_iff. split; [apply Z.eqb_eq | apply Z.leb_le]; lia.
Qed.

Lemma normalize_negative n :
  (Zpos (digits2_pos n) <= 53)%Z ->
  binary_normalize prec emax (Zneg n) 0 false = normal true n 0.
Proof.
  intros Hd. set (d := Zpos (digits2_pos n)) in *.
  unfold binary_normalize, binary_round, shl_align, fexp, emin, prec, emax.
  fold d.
  replace (Z.max (d + 0 - 53) (3 - 1024 - 53) - 0)%Z with (d - 53)%Z by lia.
  destruct (d - 53)%Z as [| a | a] eqn:Ha; [| lia |].
  - rewrite <- (pshl_zero n) at 1.
    change (binary_round_aux 53 1024) with (binary_round_aux prec emax).
    rewrite round_exact by (fold d; lia). reflexivity.
  - rewrite pshl_iter.
    change (binary_round_aux 53 1024) with (binary_round_aux prec emax).
    rewrite round_exact by (fold d; lia).
    unfold normal. fold d. f_equal. lia.
Qed.

Lemma normalize_of_integer z :
  (Z.abs z < 2 ^ 53)%Z ->
  binary_normalize prec emax z 0 false = of_integer z.
Proof.
  destruct z as [| n | n]; intros Hz; cbn [of_integer].
  - reflexivity.
  - apply normalize_integer. apply digits_le_of_lt_pow; [lia | exact Hz].
  - apply normalize_negative. apply digits_le_of_lt_pow; [lia | exact Hz].
Qed.

Lemma of_integer_valid z :
  (Z.abs z < 2 ^ 53)%Z -> valid_binary (of_integer z) = true.
Proof.
  destruct z as [| n | n]; intros Hz; cbn [of_integer].
  - reflexivity.
  - apply normal_valid. apply digits_le_of_lt_pow; [lia | exact Hz].
  - apply normal_valid. apply digits_le_of_lt_pow; [lia | exact Hz].
Qed.

Lemma floor_of_bounds s m e :
  (e < 0)%Z ->
  (floor_of s m e * 2 ^ (- e) <= cond_Zopp s (Zpos m)
   < (floor_of s m e + 1) * 2 ^ (- e))%Z.
Proof.
  intros He. unfold floor_of. rewrite Z.shiftr_div_pow2 by lia.
  assert (Hp : (0 < 2 ^ (- e))%Z) by (apply Z.pow_pos_nonneg; lia).
  pose proof (Z.div_mod (cond_Zopp s (Zpos m)) (2 ^ (- e)) ltac:(lia)) as Hdm.
  pose proof (Z.mod_pos_bound (cond_Zopp s (Zpos m)) (2 ^ (- e)) Hp) as Hmod.
  nia.
Qed.

Lemma floor_of_small s m e :
  (e < 0)%Z -> (Zpos (digits2_pos m) <= 53)%Z ->
  (Z.abs (floor_of s m e) < 2 ^ 53)%Z.
Proof.
  intros He Hd.
  destruct (floor_of_bounds s m e He) as [Hlo Hhi].
  destruct (digits_bounds m) as [_ Hm].
  assert (H53 : (2 ^ Zpos (digits2_pos m) <= 2 ^ 53)%Z) by (apply Z.pow_le_mono_r; lia).
  assert (Hp : (2 <= 2 ^ (- e))%Z).
  { change 2%Z with (2 ^ 1)%Z at 1. apply Z.pow_le_mono_r; lia. }
  destruct s; cbn [cond_Zopp] in *; nia.
Qed.

(** [Math.floor] on a finite number with a fraction part. *)
Lemma Math_floor_finite x s m e :
  Prim2SF x = S754_finite s m e -> (e < 0)%Z ->
  Prim2SF (Math_floor x) = of_integer (floor_of s m e).
Proof.
  intros Hx He.
  pose proof (Prim2SF_valid x) as Hv. rewrite Hx in Hv.
  destruct (valid_finite _ _ _ Hv) as (Hd & _ & _).
  unfold Math_floor. rewrite Hx.
  destruct (Z.leb_spec 0 e); [lia |].
  fold (floor_of s m e).
  rewrite normalize_of_integer by (now apply floor_of_small).
  apply Prim2SF_SF2Prim. apply of_integer_valid. now apply floor_of_small.
Qed.

Lemma Math_floor_integral x s m e :
  Prim2SF x = S754_finite s m e -> (0 <= e)%Z -> Math_floor x = x.
Proof.
  intros Hx He. unfold Math_floor. rewrite Hx.
  destruct (Z.leb_spec 0 e); [reflexivity | lia].
Qed.


(** The floor of an integer is the integer itself. *)
Lemma floor_of_normal s n :
  (Zpos (digits2_pos n) < 53)%Z ->
  floor_of s (pshl n (Z.to_nat (53 - Zpos (digits2_pos n))))
    (0 + Zpos (digits2_pos n) - 53)
  = cond_Zopp s (Zpos n).
Proof.
  intros Hd. set (d := Zpos (digits2_pos n)) in *.
  unfold floor_of. rewrite Z.shiftr_div_pow2 by lia.
  replace (- (0 + d - 53))%Z with (Z.of_nat (Z.to_nat (53 - d))) by lia.
  assert (Hp : (2 ^ Z.of_nat (Z.to_nat (53 - d)) <> 0)%Z) by (apply Z.pow_nonzero; lia).
  destruct s; cbn [cond_Zopp].
  - rewrite pshl_val, <- Z.mul_opp_l. now apply Z.div_mul.
  - rewrite pshl_val. now apply Z.div_mul.
Qed.

Lemma Math_floor_of_integer x z :
  (Z.abs z < 2 ^ 53)%Z -> Prim2SF x = of_integer z -> Math_floor x = x.
Proof.
  intros Hz Hx.
  destruct z as [| n | n]; cbn [of_integer] in Hx.
  - unfold Math_floor. now rewrite Hx.
  - assert (Hd : (Zpos (digits2_pos n) <= 53)%Z)
      by (apply digits_le_of_lt_pow; [lia | exact Hz]).
    unfold normal in Hx.
    destruct (Z.eq_dec (Zpos (digits2_pos n)) 53) as [E | E].
    + apply (Math_floor_integral _ _ _ _ Hx). lia.
    + apply Prim2SF_inj.
      rewrite (Math_floor_finite _ _ _ _ Hx) by lia.
      rewrite floor_of_normal by lia. cbn [cond_Zopp of_integer].
      now rewrite Hx.
  - assert (Hd : (Zpos (digits2_pos n) <= 53)%Z)
      by (apply digits_le_of_lt_pow; [lia | exact Hz]).
    unfold normal in Hx.
    destruct (Z.eq_dec (Zpos (digits2_pos n)) 53) as [E | E].
    + apply (Math_floor_integral _ _ _ _ Hx). lia.
    + apply Prim2SF_inj.
      rewrite (Math_floor_finite _ _ _ _ Hx) by lia.
      rewrite floor_of_normal by lia. cbn [cond_Zopp of_integer].
      now rewrite Hx.
Qed.

(** [Math.floor] is idempotent. *)
Lemma Math_floor_idempotent x : Math_floor (Math_floor x) = Math_floor x.
Proof.
  destruct (Prim2SF x) as [s | s | | s m e] eqn:Hx;
    try (unfold Math_floor at 2; rewrite Hx; unfold Math_floor; now rewrite Hx).
  destruct (Z.leb_spec 0 e) as [He | He].
  - now rewrite !(Math_floor_integral _ _ _ _ Hx He).
  - pose proof (Prim2SF_valid x) as Hv. rewrite Hx in Hv.
    destruct (valid_finite _ _ _ Hv) as (Hd & _ & _).
    apply (Math_floor_of_integer _ (floor_of s m e)).
    + now apply floor_of_small.
    + now apply Math_floor_finite.
Qed.


(** *** Order *)

Lemma not_nan x : PrimFloat.is_nan x = false -> Prim2SF x <> S754_nan.
Proof.
  unfold PrimFloat.is_nan. rewrite FloatAxioms.eqb_spec. intros H Hx.
  rewrite Hx in H. discriminate.
Qed.

Lemma SFleb_refl_finite s m e :
  SFleb (S754_finite s m e) (S754_finite s m e) = true.
Proof.
  unfold SFleb, SFcompare.
  change (Pos.compare_cont Eq m m) with (Pos.compare m m).
  rewrite Z.compare_refl, (proj2 (Pos.compare_eq_iff m m) eq_refl).
  destruct s; reflexivity.
Qed.

(** Comparing two positive finite numbers. *)
Lemma SFleb_pos m1 e1 m2 e2 :
  (e1 < e2 \/ (e1 = e2 /\ Zpos m1 <= Zpos m2))%Z ->
  SFleb (S754_finite false m1 e1) (S754_finite false m2 e2) = true.
Proof.
  intros H. unfold SFleb, SFcompare.
  change (Pos.compare_cont Eq m1 m2) with (Pos.compare m1 m2).
  destruct (Z.compare_spec e1 e2) as [E | E | E]; [| reflexivity | lia].
  destruct (Pos.compare_spec m1 m2) as [E' | E' | E']; try reflexivity. lia.
Qed.

(** Comparing two negative finite numbers. *)
Lemma SFleb_neg m1 e1 m2 e2 :
  (e2 < e1 \/ (e1 = e2 /\ Zpos m2 <= Zpos m1))%Z ->
  SFleb (S754_finite true m1 e1) (S754_finite true m2 e2) = true.
Proof.
  intros H. unfold SFleb, SFcompare.
  change (Pos.compare_cont Eq m1 m2) with (Pos.compare m1 m2).
  destruct (Z.compare_spec e1 e2) as [E | E | E]; [| lia | reflexivity].
  destruct (Pos.compare_spec m1 m2) as [E' | E' | E']; try reflexivity. lia.
Qed.

(** The floor of a finite number is at most the number. *)
Lemma floor_le_finite s m e :
  valid_binary (S754_finite s m e) = true -> (e < 0)%Z ->
  SFleb (of_integer (floor_of s m e)) (S754_finite s m e) = true.
Proof.
  intros Hv He.
  destruct (valid_finite _ _ _ Hv) as (Hd & Hnorm & Hrange).
  pose proof (floor_of_small s m e He Hd) as Hsmall.
  destruct (floor_of_bounds s m e He) as [Hlo Hhi].
  assert (Hp : (0 < 2 ^ (- e))%Z) by (apply Z.pow_pos_nonneg; lia).
  destruct (floor_of s m e) as [| n | n] eqn:Hz; cbn [of_integer].
  - destruct s; cbn [cond_Zopp] in *; [lia | reflexivity].
  - destruct s; cbn [cond_Zopp] in *; [nia |].
    assert (Hdn : (Zpos (digits2_pos n) <= 53)%Z)
      by (apply digits_le_of_lt_pow; [lia | exact Hsmall]).
    assert (Hsh : (Zpos (pshl n (Z.to_nat (- e))) <= Zpos m)%Z).
    { rewrite pshl_val. replace (Z.of_nat (Z.to_nat (- e))) with (- e)%Z by lia. lia. }
    pose proof (digits_mono _ _ Hsh) as Hdig. rewrite digits_pshl in Hdig.
    unfold normal. apply SFleb_pos.
    destruct (Z.eq_dec (0 + Zpos (digits2_pos n) - 53) e) as [E | E]; [right | left; lia].
    split; [exact E |].
    replace (Z.to_nat (53 - Zpos (digits2_pos n))) with (Z.to_nat (- e)) by lia.
    exact Hsh.
  - destruct s; cbn [cond_Zopp] in *; [| nia].
    assert (Hdn : (Zpos (digits2_pos n) <= 53)%Z)
      by (apply digits_le_of_lt_pow; [lia | exact Hsmall]).
    assert (Hsh : (Zpos m <= Zpos (pshl n (Z.to_nat (- e))))%Z).
    { rewrite pshl_val. replace (Z.of_nat (Z.to_nat (- e))) with (- e)%Z by lia. lia. }
    pose proof (digits_mono _ _ Hsh) as Hdig. rewrite digits_pshl in Hdig.
    unfold normal. apply SFleb_neg.
    destruct (Z.eq_dec (0 + Zpos (digits2_pos n) - 53) e) as [E | E]; [right | left; lia].
    split; [exact E |].
    replace (Z.to_nat (53 - Zpos (digits2_pos n))) with (Z.to_nat (- e)) by lia.
    exact Hsh.
Qed.

Lemma Math_floor_le x :
  PrimFloat.is_nan x = false -> (Math_floor x <=? x)%float = true.
Proof.
  intros Hnan. apply not_nan in Hnan. rewrite leb_spec.
  destruct (Prim2SF x) as [s | s | | s m e] eqn:Hx.
  - replace (Math_floor x) with x by (unfold Math_floor; now rewrite Hx).
    rewrite Hx. destruct s; reflexivity.
  - replace (Math_floor x) with x by (unfold Math_floor; now rewrite Hx).
    rewrite Hx. destruct s; reflexivity.
  - congruence.
  - destruct (Z.leb_spec 0 e) as [He | He].
    + rewrite (Math_floor_integral _ _ _ _ Hx He), Hx. apply SFleb_refl_finite.
    + rewrite (Math_floor_finite _ _ _ _ Hx He).
      apply floor_le_finite; [| exact He].
      rewrite <- Hx. apply Prim2SF_valid.
Qed.


Lemma Prim2SF_one : Prim2SF 1 = S754_finite false 4503599627370496 (-52).
Proof. reflexivity. Qed.

Lemma Prim2SF_minus_one : Prim2SF (-1) = S754_finite true 4503599627370496 (-52).
Proof. reflexivity. Qed.

Lemma Prim2SF_zero : Prim2SF 0 = S754_zero false.
Proof. reflexivity. Qed.

(** Below zero the floor is at most minus one. *)
Lemma Math_floor_negative x :
  (x <? 0)%float = true -> (Math_floor x <=? -1)%float = true.
Proof.
  rewrite ltb_spec, leb_spec, Prim2SF_zero, Prim2SF_minus_one.
  destruct (Prim2SF x) as [s | s | | s m e] eqn:Hx; try discriminate.
  - destruct s; [| discriminate]. intros _.
    replace (Math_floor x) with x by (unfold Math_floor; now rewrite Hx).
    now rewrite Hx.
  - destruct s; [| discriminate]. intros _.
    destruct (Z.leb_spec 0 e) as [He | He].
    + rewrite (Math_floor_integral _ _ _ _ Hx He), Hx.
      apply SFleb_neg. lia.
    + rewrite (Math_floor_finite _ _ _ _ Hx He).
      pose proof (Prim2SF_valid x) as Hv. rewrite Hx in Hv.
      destruct (valid_finite _ _ _ Hv) as (Hd & _ & _).
      pose proof (floor_of_small true m e He Hd) as Hsmall.
      destruct (floor_of_bounds true m e He) as [Hlo _].
      assert (Hp : (0 < 2 ^ (- e))%Z) by (apply Z.pow_pos_nonneg; lia).
      cbn [cond_Zopp] in Hlo.
      destruct (floor_of true m e) as [| n | n]; [lia | nia |].
      cbn [of_integer]. unfold normal. apply SFleb_neg.
      assert (Hdn : (Zpos (digits2_pos n) <= 53)%Z)
        by (apply digits_le_of_lt_pow; [lia | exact Hsmall]).
      destruct (Z.eq_dec (Zpos (digits2_pos n)) 1) as [E | E]; [right | left; lia].
      split; [lia |]. rewrite pshl_val, E.
      change (Z.of_nat (Z.to_nat (53 - 1))) with 52%Z.
      change (2 ^ 52)%Z with 4503599627370496%Z. lia.
Qed.

(** What [<] says of two positive finite numbers. *)
Lemma SFltb_pos_inv m1 e1 m2 e2 :
  SFltb (S754_finite false m1 e1) (S754_finite false m2 e2) = true ->
  (e1 < e2 \/ (e1 = e2 /\ Zpos m1 < Zpos m2))%Z.
Proof.
  unfold SFltb, SFcompare.
  change (Pos.compare_cont Eq m1 m2) with (Pos.compare m1 m2).
  destruct (Z.compare_spec e1 e2) as [E | E | E]; [| lia | discriminate].
  destruct (Pos.compare_spec m1 m2) as [E' | E' | E']; try discriminate.
  intros _. right. lia.
Qed.

(** Strictly between zero and one the floor is zero. *)
Lemma Math_floor_fraction x :
  (0 <? x)%float = true -> (x <? 1)%float = true -> Math_floor x = 0%float.
Proof.
  rewrite !ltb_spec, Prim2SF_zero, Prim2SF_one.
  destruct (Prim2SF x) as [s | s | | s m e] eqn:Hx.
  - intros H; discriminate H.
  - destruct s; intros H1 H2; [discriminate H1 | discriminate H2].
  - intros H; discriminate H.
  - destruct s; [intros H; discriminate H |]. intros _ Hlt.
    apply SFltb_pos_inv in Hlt.
    pose proof (Prim2SF_valid x) as Hv. rewrite Hx in Hv.
    destruct (valid_finite _ _ _ Hv) as (Hd & _ & _).
    destruct (digits_bounds m) as [_ Hm].
    assert (H53 : (2 ^ Zpos (digits2_pos m) <= 2 ^ 53)%Z)
      by (apply Z.pow_le_mono_r; lia).
    assert (He : (e < 0)%Z) by lia.
    assert (Hsmall : (Zpos m < 2 ^ (- e))%Z).
    { destruct Hlt as [E | [E E']].
      - assert (2 ^ 53 <= 2 ^ (- e))%Z by (apply Z.pow_le_mono_r; lia). lia.
      - subst e. exact E'. }
    apply Prim2SF_inj.
    rewrite (Math_floor_finite _ _ _ _ Hx He), Prim2SF_zero.
    unfold floor_of. cbn [cond_Zopp].
    rewrite Z.shiftr_div_pow2, Z.div_small by lia. reflexivity.
Qed.

(** *** Products are numbers *)

Lemma shr_1_nonneg mrs : (0 <= shr_m mrs)%Z -> (0 <= shr_m (shr_1 mrs))%Z.
Proof.
  destruct mrs as [m r st]. cbn [shr_m].
  destruct m as [| [p | p |] | p]; cbn; lia.
Qed.

Lemma shr_fexp_nonneg m e l :
  (0 <= m)%Z -> (0 <= shr_m (fst (shr_fexp prec emax m e l)))%Z.
Proof.
  intros Hm. unfold shr_fexp, shr.
  assert (H0 : (0 <= shr_m (shr_record_of_loc m l))%Z).
  { destruct l as [| []]; exact Hm. }
  destruct (fexp prec emax (Zdigits2 m + e) - e)%Z as [| p | p]; cbn [fst]; try exact H0.
  rewrite iter_pos_nat.
  induction (Pos.to_nat p) as [| k IH]; [exact H0 |].
  cbn [Nat.iter nat_rect]. now apply shr_1_nonneg.
Qed.

Lemma round_nearest_even_nonneg m l :
  (0 <= m)%Z -> (0 <= round_nearest_even m l)%Z.
Proof.
  intros Hm. destruct l as [| []]; cbn; try lia.
  destruct (Z.even m); lia.
Qed.

Lemma binary_round_aux_not_nan s m e l :
  (0 <= m)%Z -> binary_round_aux prec emax s m e l <> S754_nan.
Proof.
  intros Hm. unfold binary_round_aux.
  pose proof (shr_fexp_nonneg m e l Hm) as H1.
  destruct (shr_fexp prec emax m e l) as [mrs' e'] eqn:E1. cbn [fst] in H1.
  pose proof (shr_fexp_nonneg _ e' loc_Exact
                (round_nearest_even_nonneg _ (loc_of_shr_record mrs') H1)) as H2.
  destruct (shr_fexp prec emax _ e' loc_Exact) as [mrs'' e''] eqn:E2. cbn [fst] in H2.
  destruct (shr_m mrs'') as [| p | p]; [discriminate | | lia].
  destruct (e'' <=? emax - prec)%Z; discriminate.
Qed.

Lemma SFeqb_refl x : x <> S754_nan -> SFeqb x x = true.
Proof.
  destruct x as [s | s | | s m e]; intros H; try (destruct s; reflexivity);
    [congruence |].
  unfold SFeqb, SFcompare.
  change (Pos.compare_cont Eq m m) with (Pos.compare m m).
  rewrite Z.compare_refl, (proj2 (Pos.compare_eq_iff m m) eq_refl).
  destruct s; reflexivity.
Qed.

(** Scaling a number by [1e9] gives a number. *)
Lemma mul_1e9_not_nan x :
  PrimFloat.is_nan x = false -> PrimFloat.is_nan (x * 1e9) = false.
Proof.
  intros Hx. apply not_nan in Hx.
  unfold PrimFloat.is_nan. rewrite FloatAxioms.eqb_spec, mul_spec, Prim2SF_1e9.
  rewrite SFeqb_refl; [reflexivity |].
  unfold normal, SF64mul, SFmul.
  destruct (Prim2SF x) as [s | s | | s m e]; try discriminate; [congruence |].
  apply binary_round_aux_not_nan. lia.
Qed.

(** *** Signs *)

(** Bit length of the mantissa through right shifts. *)
Lemma shr_1_digits mrs :
  (0 <= shr_m mrs)%Z ->
  Zdigits2 (shr_m (shr_1 mrs)) = Z.max 0 (Zdigits2 (shr_m mrs) - 1).
Proof.
  destruct mrs as [m r st]. cbn [shr_m shr_1].
  destruct m as [| [p | p |] | p]; intros H; cbn [shr_m Zdigits2 digits2_pos]; lia.
Qed.

Lemma shr_iter_digits k mrs :
  (0 <= shr_m mrs)%Z ->
  (0 <= shr_m (Nat.iter k shr_1 mrs))%Z /\
  Zdigits2 (shr_m (Nat.iter k shr_1 mrs))
  = Z.max 0 (Zdigits2 (shr_m mrs) - Z.of_nat k).
Proof.
  intros H. induction k as [| k [IH0 IH]].
  - cbn [Nat.iter nat_rect]. split; [exact H |].
    destruct (shr_m mrs) as [| p | p]; cbn [Zdigits2]; lia.
  - cbn [Nat.iter nat_rect]. split; [now apply shr_1_nonneg |].
    rewrite shr_1_digits by exact IH0.
    change (nat_rect (fun _ => shr_record) mrs (fun _ => shr_1) k)
      with (Nat.iter k shr_1 mrs).
    rewrite IH. lia.
Qed.

Lemma shr_record_of_loc_m m l : shr_m (shr_record_of_loc m l) = m.
Proof. destruct l as [| []]; reflexivity. Qed.

(** Aligning a positive mantissa that lies above the least exponent keeps
    it positive. *)
Lemma shr_fexp_digits m e l :
  (0 < m)%Z -> (-1074 - e < Zdigits2 m)%Z ->
  let r := shr_fexp prec emax m e l in
  (0 < shr_m (fst r))%Z /\
  (-1074 - snd r < Zdigits2 (shr_m (fst r)))%Z /\
  (Zdigits2 (shr_m (fst r)) <= Zdigits2 m)%Z.
Proof.
  intros Hm Hd. unfold shr_fexp, shr, fexp, emin, prec, emax.
  assert (Hdpos : (0 < Zdigits2 m)%Z) by (destruct m; cbn; lia).
  destruct (Z.max (Zdigits2 m + e - 53) (3 - 1024 - 53) - e)%Z as [| p | p] eqn:Hn;
    cbn [fst snd]; rewrite ?shr_record_of_loc_m; try lia.
  rewrite iter_pos_nat.
  destruct (shr_iter_digits (Pos.to_nat p) (shr_record_of_loc m l)) as [H0 Hdig].
  { rewrite shr_record_of_loc_m. lia. }
  rewrite shr_record_of_loc_m in Hdig.
  set (m' := shr_m (Nat.iter (Pos.to_nat p) shr_1 (shr_record_of_loc m l))) in *.
  assert (Hd' : (0 < Zdigits2 m')%Z) by lia.
  repeat split; try lia.
  destruct m'; cbn in Hd'; lia.
Qed.

Lemma Zdigits2_mono a b : (0 < a <= b)%Z -> (Zdigits2 a <= Zdigits2 b)%Z.
Proof.
  destruct a as [| p | p]; try lia. destruct b as [| q | q]; try lia.
  intros [_ H]. cbn [Zdigits2]. now apply digits_mono.
Qed.

Lemma round_nearest_even_bounds m l :
  (m <= round_nearest_even m l <= m + 1)%Z.
Proof.
  destruct l as [| []]; cbn; try lia. destruct (Z.even m); lia.
Qed.

(** Rounding a positive mantissa that lies above the least exponent gives a
    finite number or an infinity, of the sign asked for: never a zero. *)
Lemma binary_round_aux_sign s p e l :
  (-1074 - e < Zpos (digits2_pos p))%Z ->
  (exists m' e', binary_round_aux prec emax s (Zpos p) e l = S754_finite s m' e')
  \/ binary_round_aux prec emax s (Zpos p) e l = S754_infinity s.
Proof.
  intros Hd. unfold binary_round_aux.
  destruct (shr_fexp_digits (Zpos p) e l ltac:(lia) Hd) as (H1 & H1d & _).
  destruct (shr_fexp prec emax (Zpos p) e l) as [mrs' e'].
  cbn [fst snd] in H1, H1d.
  pose proof (round_nearest_even_bounds (shr_m mrs') (loc_of_shr_record mrs')) as Hr.
  set (m2 := round_nearest_even (shr_m mrs') (loc_of_shr_record mrs')) in *.
  assert (H2d : (-1074 - e' < Zdigits2 m2)%Z).
  { pose proof (Zdigits2_mono (shr_m mrs') m2 ltac:(lia)). lia. }
  destruct (shr_fexp_digits m2 e' loc_Exact ltac:(lia) H2d) as (H3 & _ & _).
  destruct (shr_fexp prec emax m2 e' loc_Exact) as [mrs'' e''].
  cbn [fst] in H3.
  destruct (shr_m mrs'') as [| q | q]; try lia.
  destruct (e'' <=? emax - prec)%Z; [left; eauto | right; reflexivity].
Qed.

(** Scaling by [1e9] keeps the sign: the product of a number below zero is
    below zero. *)
Lemma mul_1e9_negative x :
  (x <? 0)%float = true -> (x * 1e9 <? 0)%float = true.
Proof.
  rewrite !ltb_spec, mul_spec, Prim2SF_1e9, Prim2SF_zero.
  pose proof (Prim2SF_valid x) as Hv.
  destruct (Prim2SF x) as [s | s | | s m e]; try discriminate.
  - destruct s; [reflexivity | discriminate].
  - destruct s; [intros _ | discriminate].
    destruct (valid_finite _ _ _ Hv) as (_ & _ & He).
    unfold normal, SF64mul, SFmul. cbn [xorb].
    set (M := (m * _)%positive). set (E := (e + _)%Z).
    assert (HE : (-1074 - E < Zpos (digits2_pos M))%Z).
    { unfold E, M. rewrite digits_lamports_per_sol.
      assert (Hle : (Zpos (pshl lamports_per_sol (Z.to_nat (53 - 30)))
                     <= Zpos (m * pshl lamports_per_sol (Z.to_nat (53 - 30))))%Z)
        by (rewrite Pos2Z.inj_mul; nia).
      apply digits_mono in Hle. rewrite digits_pshl, digits_lamports_per_sol in Hle.
      lia. }
    destruct (binary_round_aux_sign true M E loc_Exact HE) as [(m' & e' & ->) | ->];
      reflexivity.
Qed.

(** Likewise above zero. *)
Lemma mul_1e9_positive x :
  (0 <? x)%float = true -> (0 <? x * 1e9)%float = true.
Proof.
  rewrite !ltb_spec, mul_spec, Prim2SF_1e9, Prim2SF_zero.
  pose proof (Prim2SF_valid x) as Hv.
  destruct (Prim2SF x) as [s | s | | s m e]; try discriminate.
  - destruct s; [discriminate | reflexivity].
  - destruct s; [discriminate | intros _].
    destruct (valid_finite _ _ _ Hv) as (_ & _ & He).
    unfold normal, SF64mul, SFmul. cbn [xorb].
    set (M := (m * _)%positive). set (E := (e + _)%Z).
    assert (HE : (-1074 - E < Zpos (digits2_pos M))%Z).
    { unfold E, M. rewrite digits_lamports_per_sol.
      assert (Hle : (Zpos (pshl lamports_per_sol (Z.to_nat (53 - 30)))
                     <= Zpos (m * pshl lamports_per_sol (Z.to_nat (53 - 30))))%Z)
        by (rewrite Pos2Z.inj_mul; nia).
      apply digits_mono in Hle. rewrite digits_pshl, digits_lamports_per_sol in Hle.
      lia. }
    destruct (binary_round_aux_sign false M E loc_Exact HE) as [(m' & e' & ->) | ->];
      reflexivity.
Qed.

(** From zero upwards the floor is at least zero. *)
Lemma Math_floor_nonneg x :
  (0 <=? x)%float = true -> (0 <=? Math_floor x)%float = true.
Proof.
  rewrite !leb_spec, Prim2SF_zero.
  destruct (Prim2SF x) as [s | s | | s m e] eqn:Hx; try discriminate.
  - intros _. replace (Math_floor x) with x by (unfold Math_floor; now rewrite Hx).
    now rewrite Hx.
  - intros H. replace (Math_floor x) with x by (unfold Math_floor; now rewrite Hx).
    now rewrite Hx.
  - destruct s; [discriminate | intros _].
    destruct (Z.leb_spec 0 e) as [He | He].
    + now rewrite (Math_floor_integral _ _ _ _ Hx He), Hx.
    + rewrite (Math_floor_finite _ _ _ _ Hx He).
      destruct (floor_of_bounds false m e He) as [_ Hhi].
      assert (Hp : (0 < 2 ^ (- e))%Z) by (apply Z.pow_pos_nonneg; lia).
      cbn [cond_Zopp] in Hhi.
      destruct (floor_of false m e) as [| n | n]; [reflexivity | reflexivity | nia].
Qed.

(** Scaling by [1e9] keeps a number at or above zero there. *)
Lemma mul_1e9_nonneg x :
  (0 <=? x)%float = true -> (0 <=? x * 1e9)%float = true.
Proof.
  rewrite !leb_spec, mul_spec, Prim2SF_1e9, Prim2SF_zero.
  pose proof (Prim2SF_valid x) as Hv.
  destruct (Prim2SF x) as [s | s | | s m e]; try discriminate.
  - intros _. destruct s; reflexivity.
  - destruct s; [discriminate | reflexivity].
  - destruct s; [discriminate | intros _].
    unfold normal, SF64mul, SFmul. cbn [xorb].
    pose proof (binary_round_aux_not_nan false
                  (Zpos (m * pshl lamports_per_sol
                               (Z.to_nat (53 - Zpos (digits2_pos lamports_per_sol)))))
                  (e + (0 + Zpos (digits2_pos lamports_per_sol) - 53)) loc_Exact
                  ltac:(lia)) as Hnan.
    assert (Hsign : forall s' m' e' l',
               match binary_round_aux prec emax s' m' e' l' with
               | S754_zero s'' | S754_infinity s'' | S754_finite s'' _ _ => s'' = s'
               | S754_nan => True
               end).
    { intros s' m' e' l'. unfold binary_round_aux.
      destruct (shr_fexp prec emax m' e' l') as [a b].
      destruct (shr_fexp prec emax _ b loc_Exact) as [c d].
      destruct (shr_m c); [reflexivity | | exact I].
      destruct (d <=? emax - prec)%Z; reflexivity. }
    specialize (Hsign false
                  (Zpos (m * pshl lamports_per_sol
                               (Z.to_nat (53 - Zpos (digits2_pos lamports_per_sol)))))
                  (e + (0 + Zpos (digits2_pos lamports_per_sol) - 53))%Z loc_Exact).
    destruct (binary_round_aux _ _ _ _ _ _) as [s' | s' | | s' m' e'];
      try congruence; subst s'; reflexivity.
Qed.

End Floor.

(** X13. [solToLamports] returns a whole number (or NaN or an infinity,
    which [Math.floor] leaves alone): flooring its result again changes
    nothing. *)
Theorem X13_solToLamports_is_whole sol :
  Num.Math_floor (solToLamports sol) = solToLamports sol.
Proof.
  unfold solToLamports. apply Floor.Math_floor_idempotent.
Qed.

(** X14. [solToLamports] never rounds up: for every [sol] that is a number,
    the result is at most the product [sol * 1e9] it is taken from. *)
Theorem X14_solToLamports_never_rounds_up sol :
  PrimFloat.is_nan sol = false ->
  (solToLamports sol <=? sol * 1e9)%float = true.
Proof.
  intros Hsol. unfold solToLamports.
  apply Floor.Math_floor_le. now apply Floor.mul_1e9_not_nan.
Qed.

Lemma X14_solToLamports_never_rounds_up_witness :
  (solToLamports (lamportsToSol 15) <=? lamportsToSol 15 * 1e9)%float = true.
Proof.
  apply (X14_solToLamports_never_rounds_up (lamportsToSol 15)). reflexivity.
Defined.

(** X15. A positive amount whose product [sol * 1e9] is below one, less
    than one lamport, converts to zero lamports. *)
Theorem X15_less_than_a_lamport_is_zero sol :
  (0 <? sol)%float = true ->
  (sol * 1e9 <? 1)%float = true ->
  solToLamports sol = 0%float.
Proof.
  intros Hpos Hlt. unfold solToLamports.
  apply Floor.Math_floor_fraction; [now apply Floor.mul_1e9_positive | exact Hlt].
Qed.

Lemma X15_less_than_a_lamport_is_zero_witness :
  solToLamports (lamportsToSol 0.5) = 0%float.
Proof.
  apply (X15_less_than_a_lamport_is_zero (lamportsToSol 0.5)); reflexivity.
Defined.

(** X16. A negative amount is not refused and is floored away from zero:
    for every [sol] below zero, however small, the result is at most minus
    one lamport. *)
Theorem X16_negative_amounts_round_down sol :
  (sol <? 0)%float = true ->
  (solToLamports sol <=? -1)%float = true.
Proof.
  intros Hneg. unfold solToLamports.
  apply Floor.Math_floor_negative. now apply Floor.mul_1e9_negative.
Qed.

Lemma X16_negative_amounts_round_down_witness :
  (solToLamports (lamportsToSol (-0.5)) <=? -1)%float = true.
Proof.
  apply (X16_negative_amounts_round_down (lamportsToSol (-0.5))). reflexivity.
Defined.

(** X17. An amount at or above zero never converts to a negative number of
    lamports. *)
Theorem X17_nonnegative_amounts_stay_nonnegative sol :
  (0 <=? sol)%float = true ->
  (0 <=? solToLamports sol)%float = true.
Proof.
  intros Hsol. unfold solToLamports.
  apply Floor.Math_floor_nonneg. now apply Floor.mul_1e9_nonneg.
Qed.

Lemma X17_nonnegative_amounts_stay_nonnegative_witness :
  (0 <=? solToLamports (lamportsToSol 15))%float = true.
Proof.
  apply (X17_nonnegative_amounts_stay_nonnegative (lamportsToSol 15)). reflexivity.
Defined.

(** ** Round trips of amounts that are not whole SOL

    Off the whole SOL amounts the division by 1e9 and the multiplication
    by 1e9 each round their result to the nearest binary64 number, so what
    comes back before [Math.floor] is within two relative errors of 2^-53
    of the amount that went in; below 2^52 lamports that is less than a
    lamport, and the floor lands on the amount or on the lamport below
    it. *)

Module RoundTrip.
Import Num Binary64 Floor.

(** *** Where the exact value lies while bits are shifted out *)

Lemma located_of_loc m l A B :
  located m l A B ->
  located (shr_m (shr_record_of_loc m l)) (loc_of_shr_record (shr_record_of_loc m l)) A B.
Proof. destruct l as [| []]; exact (fun H => H). Qed.

(** Shifting one bit out halves the unit and keeps the location right. *)
Lemma shr_1_located mrs A B :
  (0 < B)%Z -> (0 <= shr_m mrs)%Z ->
  located (shr_m mrs) (loc_of_shr_record mrs) A B ->
  located (shr_m (shr_1 mrs)) (loc_of_shr_record (shr_1 mrs)) A (2 * B).
Proof.
  destruct mrs as [m r s]. cbn [shr_m]. intros HB Hm.
  destruct m as [| [p | p |] | p]; try lia;
    destruct r, s; cbn [shr_1 orb loc_of_shr_record shr_m located]; nia.
Qed.

Lemma shr_iter_located k mrs A B :
  (0 < B)%Z -> (0 <= shr_m mrs)%Z ->
  located (shr_m mrs) (loc_of_shr_record mrs) A B ->
  located (shr_m (Nat.iter k shr_1 mrs)) (loc_of_shr_record (Nat.iter k shr_1 mrs))
    A (2 ^ Z.of_nat k * B).
Proof.
  intros HB Hm H. induction k as [| k IH].
  - cbn [Nat.iter nat_rect]. now rewrite Z.pow_0_r, Z.mul_1_l.
  - cbn [Nat.iter nat_rect].
    change (nat_rect (fun _ => shr_record) mrs (fun _ => shr_1) k)
      with (Nat.iter k shr_1 mrs) in *.
    rewrite Nat2Z.inj_succ, Z.pow_succ_r, <- Z.mul_assoc by lia.
    apply shr_1_located; [| apply shr_iter_digits; exact Hm | exact IH].
    apply Z.mul_pos_pos; [apply Z.pow_pos_nonneg; lia | exact HB].
Qed.

(** Rounding to nearest even lands within half a unit of the exact value. *)
Lemma round_nearest_even_located m l A B :
  (0 < B)%Z -> located m l A B ->
  (2 * (round_nearest_even m l * B) - B <= 2 * A
   <= 2 * (round_nearest_even m l * B) + B)%Z.
Proof.
  intros HB. destruct l as [| []]; cbn [located round_nearest_even];
    try destruct (Z.even m); nia.
Qed.

Lemma located_lower m l A B : (0 < B)%Z -> located m l A B -> (m * B <= A)%Z.
Proof. intros HB. destruct l as [| []]; cbn [located]; nia. Qed.

(** A quotient with its remainder locates the exact ratio. *)
Lemma new_location_located m2 A :
  (0 < m2)%Z -> Z.even m2 = true ->
  located (A / m2) (new_location m2 (A mod m2)) A m2.
Proof.
  intros Hm2 Hev.
  pose proof (Z.div_mod A m2 ltac:(lia)) as Hdm.
  pose proof (Z.mod_pos_bound A m2 Hm2) as Hmod.
  unfold new_location, new_location_even. rewrite Hev.
  destruct (Z.eqb_spec (A mod m2) 0) as [H0 | H0]; cbn [located]; [nia |].
  destruct (Z.compare_spec (2 * (A mod m2)) m2) as [H | H | H]; cbn [located]; nia.
Qed.

(** *** Rounding a long mantissa *)

Lemma shr_1_m mrs :
  (0 <= shr_m mrs)%Z -> shr_m (shr_1 mrs) = (shr_m mrs / 2)%Z.
Proof.
  destruct mrs as [m r st]. cbn [shr_m shr_1].
  destruct m as [| [p | p |] | p]; intros H; cbn [shr_m]; try lia.
  - reflexivity.
  - apply Z.div_unique with (r := 1%Z); lia.
  - apply Z.div_unique with (r := 0%Z); lia.
  - reflexivity.
Qed.

Lemma shr_iter_m k mrs :
  (0 <= shr_m mrs)%Z ->
  shr_m (Nat.iter k shr_1 mrs) = (shr_m mrs / 2 ^ Z.of_nat k)%Z.
Proof.
  intros H. induction k as [| k IH].
  - cbn [Nat.iter nat_rect]. now rewrite Z.div_1_r.
  - cbn [Nat.iter nat_rect].
    change (nat_rect (fun _ => shr_record) mrs (fun _ => shr_1) k)
      with (Nat.iter k shr_1 mrs).
    rewrite shr_1_m by (apply shr_iter_digits; exact H).
    rewrite IH, Z.div_div by (try apply Z.pow_pos_nonneg; lia).
    rewrite Nat2Z.inj_succ, Z.pow_succ_r by lia. f_equal. lia.
Qed.

(** What [shr_fexp] does to a positive mantissa of at least 53 bits in the
    normal range: it drops the bits beyond 53, and keeps track of where the
    exact value [A / B] lies. *)
Lemma shr_fexp_normal m e l A B :
  (0 < m)%Z -> (53 <= Zdigits2 m)%Z -> (-1074 <= e + Zdigits2 m - 53)%Z ->
  (0 < B)%Z -> located m l A B ->
  let k := (Zdigits2 m - 53)%Z in
  let mrs := fst (shr_fexp prec emax m e l) in
  shr_m mrs = (m / 2 ^ k)%Z /\
  snd (shr_fexp prec emax m e l) = (e + k)%Z /\
  located (shr_m mrs) (loc_of_shr_record mrs) A (2 ^ k * B).
Proof.
  intros Hm Hd He HB Hl k.
  unfold shr_fexp, shr, fexp, emin, prec, emax.
  replace (Z.max (Zdigits2 m + e - 53) (3 - 1024 - 53) - e)%Z with k by (unfold k; lia).
  apply located_of_loc in Hl.
  destruct k as [| p | p] eqn:Hk; cbn [fst snd].
  - split; [| split].
    + now rewrite shr_record_of_loc_m, Z.div_1_r.
    + lia.
    + now rewrite Z.pow_0_r, Z.mul_1_l.
  - rewrite iter_pos_nat. split; [| split].
    + rewrite shr_iter_m by (rewrite shr_record_of_loc_m; lia).
      now rewrite shr_record_of_loc_m, positive_nat_Z.
    + reflexivity.
    + rewrite <- (positive_nat_Z p).
      apply shr_iter_located; [exact HB | rewrite shr_record_of_loc_m; lia | exact Hl].
  - lia.
Qed.

Lemma Zdigits2_53 x : (2 ^ 52 <= x < 2 ^ 53)%Z -> Zdigits2 x = 53%Z.
Proof.
  intros [Hlo Hhi]. destruct x as [| q | q]; try (cbn in Hlo; lia).
  cbn [Zdigits2].
  pose proof (digits_le_of_lt_pow q 53 ltac:(lia) Hhi) as H1.
  destruct (digits_bounds q) as [_ H2].
  destruct (Z.le_gt_cases 53 (Zpos (digits2_pos q))) as [H | H]; [lia |].
  assert (2 ^ Zpos (digits2_pos q) <= 2 ^ 52)%Z by (apply Z.pow_le_mono_r; lia).
  lia.
Qed.

Lemma Zdigits2_bounds x :
  (0 < x)%Z -> (2 ^ (Zdigits2 x - 1) <= x < 2 ^ Zdigits2 x)%Z.
Proof.
  destruct x as [| q | q]; try lia. intros _. apply digits_bounds.
Qed.

(** Rounding is to nearest: when the exact value is [A / B] in units of
    [2^E], with integer part the mantissa [M] of at least 53 bits and [l]
    telling where the rest lies, the result is a finite number whose value
    [V], in the same units, is within one part in [2^53] of [A / B]. *)
Lemma round_nearest s M E l A B :
  (0 < M)%Z -> (53 <= Zdigits2 M)%Z ->
  (-1074 <= E + Zdigits2 M - 53)%Z -> (E + Zdigits2 M - 53 + 1 <= 971)%Z ->
  (0 < B)%Z -> located M l A B ->
  exists m' e',
    binary_round_aux prec emax s M E l = S754_finite s m' e' /\
    (E + Zdigits2 M - 53 <= e' <= E + Zdigits2 M - 53 + 1)%Z /\
    ((2 ^ 53 - 1) * A <= 2 ^ 53 * (Zpos m' * 2 ^ (e' - E) * B)
     <= (2 ^ 53 + 1) * A)%Z.
Proof.
  intros HM Hd Hlo Hhi HB Hl.
  set (k := (Zdigits2 M - 53)%Z) in *.
  assert (Hk : (0 <= k)%Z) by (unfold k; lia).
  destruct (Zdigits2_bounds M HM) as [HMlo HMhi].
  replace (Zdigits2 M - 1)%Z with (52 + k)%Z in HMlo by (unfold k; lia).
  replace (Zdigits2 M) with (53 + k)%Z in HMhi by (unfold k; lia).
  rewrite Z.pow_add_r in HMlo, HMhi by lia.
  assert (Hpk : (0 < 2 ^ k)%Z) by (apply Z.pow_pos_nonneg; lia).
  set (M1 := (M / 2 ^ k)%Z).
  assert (HM1 : (M1 * 2 ^ k <= M < (M1 + 1) * 2 ^ k)%Z).
  { unfold M1. pose proof (Z.div_mod M (2 ^ k) ltac:(lia)).
    pose proof (Z.mod_pos_bound M (2 ^ k) Hpk). nia. }
  assert (HM1r : (2 ^ 52 <= M1 < 2 ^ 53)%Z) by nia.
  pose proof (located_lower _ _ _ _ HB Hl) as HAM.
  unfold binary_round_aux.
  destruct (shr_fexp_normal M E l A B HM Hd ltac:(lia) HB Hl) as (H1m & H1e & H1l).
  destruct (shr_fexp prec emax M E l) as [mrs' e1]. cbn [fst snd] in H1m, H1e, H1l.
  fold k in H1m, H1e, H1l. fold M1 in H1m. rewrite H1m in *. subst e1.
  pose proof (round_nearest_even_bounds M1 (loc_of_shr_record mrs')) as HR.
  assert (HkB : (0 < 2 ^ k * B)%Z) by (apply Z.mul_pos_pos; assumption).
  pose proof (round_nearest_even_located _ _ _ _ HkB H1l) as HN.
  set (R := round_nearest_even M1 (loc_of_shr_record mrs')) in *.
  assert (HV : ((2 ^ 53 - 1) * A <= 2 ^ 53 * (R * 2 ^ k * B) <= (2 ^ 53 + 1) * A)%Z).
  { assert (2 ^ 52 * (2 ^ k * B) <= A)%Z by nia.
    change (2 ^ 53)%Z with (2 * 2 ^ 52)%Z.
    set (W := (2 ^ k * B)%Z) in *.
    replace (R * 2 ^ k * B)%Z with (R * W)%Z by (unfold W; ring).
    set (P := (2 ^ 52)%Z) in *. nia. }
  destruct (Z.eq_dec R (2 ^ 53)) as [ER | NR].
  - (* the carry: 2^53 is renormalised to 2^52 *)
    assert (HdR : Zdigits2 R = 54%Z) by (rewrite ER; reflexivity).
    destruct (shr_fexp_normal R (E + k) loc_Exact R 1
                ltac:(lia) ltac:(lia) ltac:(lia) ltac:(lia) ltac:(cbn; lia))
      as (H2m & H2e & _).
    destruct (shr_fexp prec emax R (E + k) loc_Exact) as [mrs'' e2].
    cbn [fst snd] in H2m, H2e. rewrite HdR in H2m, H2e.
    rewrite H2m, ER. change (2 ^ 53 / 2 ^ (54 - 53))%Z with (Zpos 4503599627370496).
    cbv iota. subst e2.
    destruct (Z.leb_spec (E + k + (54 - 53)) (emax - prec)) as [_ | Hbad];
      [| unfold emax, prec in Hbad; lia].
    eexists _, _. split; [reflexivity |]. split; [lia |].
    replace (E + k + (54 - 53) - E)%Z with (k + 1)%Z by lia.
    rewrite Z.pow_add_r by lia.
    replace (Zpos 4503599627370496 * (2 ^ k * 2 ^ 1) * B)%Z with (R * 2 ^ k * B)%Z.
    + exact HV.
    + rewrite ER. change (2 ^ 53)%Z with (Zpos 4503599627370496 * 2 ^ 1)%Z. ring.
  - assert (HdR : Zdigits2 R = 53%Z) by (apply Zdigits2_53; lia).
    destruct (shr_fexp_normal R (E + k) loc_Exact R 1
                ltac:(lia) ltac:(lia) ltac:(lia) ltac:(lia) ltac:(cbn; lia))
      as (H2m & H2e & _).
    destruct (shr_fexp prec emax R (E + k) loc_Exact) as [mrs'' e2].
    cbn [fst snd] in H2m, H2e. rewrite HdR in H2m, H2e.
    change (2 ^ (53 - 53))%Z with 1%Z in H2m. rewrite Z.div_1_r in H2m.
    rewrite H2m. subst e2.
    destruct R as [| q | q] eqn:EqR; try lia.
    destruct (Z.leb_spec (E + k + (53 - 53)) (emax - prec)) as [_ | Hbad];
      [| unfold emax, prec in Hbad; lia].
    eexists _, _. split; [reflexivity |]. split; [lia |].
    replace (E + k + (53 - 53) - E)%Z with k by lia. exact HV.
Qed.

(** Two relative errors of one part in [K] move [n] by less than one, as
    long as [2 * n < K]. *)
Lemma squeeze_upper K n W X :
  (0 < W)%Z -> (0 < K)%Z -> (0 <= n)%Z -> (2 * n + 2 <= K)%Z ->
  (K * K * X <= (K + 1) * (K + 1) * (n * W))%Z ->
  (X < (n + 1) * W)%Z.
Proof.
  intros HW HK Hn HnK H.
  destruct (Z.lt_ge_cases X ((n + 1) * W)) as [Hlt | Hge]; [exact Hlt | exfalso].
  assert (H1 : (K * K * ((n + 1) * W) <= (K + 1) * (K + 1) * (n * W))%Z) by nia.
  assert (H2 : (W * (K * K * (n + 1)) <= W * ((K + 1) * (K + 1) * n))%Z) by lia.
  apply Z.mul_le_mono_pos_l in H2; [| exact HW]. nia.
Qed.

Lemma squeeze_lower K n W X :
  (0 < W)%Z -> (1 < K)%Z -> (0 <= n)%Z -> (2 * n <= K)%Z ->
  ((K - 1) * (K - 1) * (n * W) <= K * K * X)%Z ->
  ((n - 1) * W <= X)%Z.
Proof.
  intros HW HK Hn HnK H.
  destruct (Z.le_gt_cases ((n - 1) * W) X) as [Hle | Hgt]; [exact Hle | exfalso].
  assert (H1 : ((K - 1) * (K - 1) * (n * W) < K * K * ((n - 1) * W))%Z) by nia.
  assert (H2 : (W * ((K - 1) * (K - 1) * n) < W * (K * K * (n - 1)))%Z) by lia.
  apply Z.mul_lt_mono_pos_l in H2; [| exact HW]. nia.
Qed.

Lemma of_Z_of_integer z :
  (0 <= z < 2 ^ 53)%Z -> Prim2SF (of_Z z) = of_integer z.
Proof.
  intros [Hlo Hhi]. destruct z as [| p | p]; [reflexivity | | lia].
  cbn [of_integer]. apply of_Z_normal. apply digits_le_of_lt_pow; [lia | exact Hhi].
Qed.

(** *** Dividing whole lamports by 1e9 and multiplying back *)

Lemma lamports_mantissa : Zpos (pshl lamports_per_sol 23) = (1000000000 * 2 ^ 23)%Z.
Proof. reflexivity. Qed.

Section WholeLamports.

Variable n : positive.
Let a : Z := Zpos (digits2_pos n).
Hypothesis Ha : (a <= 52)%Z.
Let T : Z := (2 ^ (83 - a))%Z.
Let m1 : Z := Zpos (pshl n (Z.to_nat (53 - a))).
Let m2 : Z := Zpos (pshl lamports_per_sol 23).
Let Q : Z := (m1 * 2 ^ 53 / m2)%Z.

Lemma m1_val : m1 = (Zpos n * 2 ^ (53 - a))%Z.
Proof.
  unfold m1. rewrite pshl_val. f_equal. f_equal. unfold a in *. lia.
Qed.

Lemma m1_range : (2 ^ 52 <= m1 < 2 ^ 53)%Z.
Proof.
  pose proof (digits_bounds (pshl n (Z.to_nat (53 - a)))) as H.
  rewrite digits_pshl in H. fold a in H. fold m1 in H.
  replace (a + Z.of_nat (Z.to_nat (53 - a)))%Z with 53%Z in H by (unfold a in *; lia).
  exact H.
Qed.

Lemma T_pos : (0 < T)%Z.
Proof. unfold T. apply Z.pow_pos_nonneg; unfold a in *; lia. Qed.

(** The dividend, shifted, is [n * T * 2^23]. *)
Lemma dividend_val : (m1 * 2 ^ 53 = Zpos n * T * 2 ^ 23)%Z.
Proof.
  rewrite m1_val. unfold T.
  replace (83 - a)%Z with ((53 - a) + 30)%Z by lia.
  rewrite Z.pow_add_r by (unfold a in *; lia).
  change (2 ^ 53)%Z with (2 ^ 30 * 2 ^ 23)%Z. ring.
Qed.

Lemma Q_range : (2 ^ 52 <= Q < 2 ^ 54)%Z.
Proof.
  assert (Hm2 : (0 < m2)%Z) by (unfold m2; lia).
  pose proof (Z.div_mod (m1 * 2 ^ 53) m2 ltac:(lia)) as Hdm.
  pose proof (Z.mod_pos_bound (m1 * 2 ^ 53) m2 Hm2) as Hmod.
  fold Q in Hdm. pose proof m1_range as Hm1.
  unfold m2 in *. rewrite lamports_mantissa in *.
  change (2 ^ 23)%Z with 8388608%Z in *.
  change (2 ^ 52)%Z with 4503599627370496%Z in *.
  change (2 ^ 53)%Z with 9007199254740992%Z in *.
  change (2 ^ 54)%Z with 18014398509481984%Z. lia.
Qed.

Lemma div_core_lamports :
  SFdiv_core_binary prec emax m1 (0 + a - 53) m2 (-23)
  = (Q, (a - 83)%Z, new_location m2 (m1 * 2 ^ 53 mod m2)%Z).
Proof.
  unfold SFdiv_core_binary, m1, m2, Zdigits2.
  rewrite !digits_pshl, digits_lamports_per_sol. fold a.
  unfold fexp, emin, prec, emax.
  replace (Z.min
             (Z.max (a + Z.of_nat (Z.to_nat (53 - a)) + (0 + a - 53)
                     - (30 + Z.of_nat 23 + -23) - 53) (3 - 1024 - 53))
             (0 + a - 53 - -23))%Z
    with (a - 83)%Z by (unfold a in *; lia).
  replace (0 + a - 53 - -23 - (a - 83))%Z with 53%Z by lia.
  rewrite Z.shiftl_mul_pow2 by lia.
  fold m1 m2. unfold Q, Z.div, Z.modulo.
  destruct (Z.div_eucl (m1 * 2 ^ 53) m2) as [q r]. reflexivity.
Qed.

(** The quotient [n / 1e9] as a float: a mantissa [mq] and an exponent [eq]
    whose value, in units of [1 / T], is within one part in [2^53] of
    [n * T / 1e9]. *)
Lemma div_lamports_nearest :
  exists mq eq,
    Prim2SF (of_Z (Zpos n) / 1e9) = S754_finite false mq eq /\
    (a - 83 <= eq <= a - 81)%Z /\
    ((2 ^ 53 - 1) * (Zpos n * T)
     <= 2 ^ 53 * (Zpos mq * 2 ^ (eq - (a - 83)) * 1000000000)
     <= (2 ^ 53 + 1) * (Zpos n * T))%Z.
Proof.
  pose proof Q_range as HQ.
  assert (Hm2 : (0 < m2)%Z) by (unfold m2; lia).
  assert (HdQ : (53 <= Zdigits2 Q <= 54)%Z).
  { destruct Q as [| q | q] eqn:EQ; try lia. cbn [Zdigits2]. split.
    - destruct (digits_bounds q) as [_ H].
      destruct (Z.le_gt_cases 53 (Zpos (digits2_pos q))) as [H' | H']; [lia |].
      assert (2 ^ Zpos (digits2_pos q) <= 2 ^ 52)%Z by (apply Z.pow_le_mono_r; lia).
      lia.
    - apply digits_le_of_lt_pow; lia. }
  assert (Hloc : located Q (new_location m2 (m1 * 2 ^ 53 mod m2)) (m1 * 2 ^ 53) m2).
  { apply new_location_located; [exact Hm2 | reflexivity]. }
  destruct (round_nearest false Q (a - 83) _ _ _
              ltac:(lia) ltac:(lia) ltac:(unfold a in *; lia) ltac:(unfold a in *; lia)
              Hm2 Hloc)
    as (mq & eq & Hr & Heq & HV).
  exists mq, eq. split; [| split].
  - rewrite div_spec, Prim2SF_1e9, of_Z_normal by (fold a; lia).
    unfold normal at 1 2. rewrite digits_lamports_per_sol. fold a.
    unfold SF64div, SFdiv. cbn [xorb].
    change (Z.to_nat (53 - 30)) with 23%nat. change (0 + 30 - 53)%Z with (-23)%Z.
    fold m1 m2. rewrite div_core_lamports. exact Hr.
  - lia.
  - rewrite dividend_val in HV. unfold m2 in HV. rewrite lamports_mantissa in HV.
    set (B := (Zpos mq * 2 ^ (eq - (a - 83)))%Z) in *.
    change (2 ^ 23)%Z with 8388608%Z in *.
    change (2 ^ 53)%Z with 9007199254740992%Z in *. nia.
Qed.

Lemma n_small : (2 * Zpos n + 2 <= 2 ^ 53)%Z.
Proof.
  destruct (digits_bounds n) as [_ H]. fold a in H.
  assert (2 ^ a <= 2 ^ 52)%Z by (apply Z.pow_le_mono_r; lia).
  change (2 ^ 53)%Z with (2 * 2 ^ 52)%Z. lia.
Qed.

(** Multiplying the quotient back and flooring gives [n] or [n - 1]. *)
Lemma mul_floor_lamports q mq eq :
  Prim2SF q = S754_finite false mq eq ->
  (a - 83 <= eq <= a - 81)%Z ->
  ((2 ^ 53 - 1) * (Zpos n * T)
   <= 2 ^ 53 * (Zpos mq * 2 ^ (eq - (a - 83)) * 1000000000)
   <= (2 ^ 53 + 1) * (Zpos n * T))%Z ->
  exists F, Math_floor (q * 1e9) = of_Z F /\ (F = Zpos n \/ F = Zpos n - 1)%Z.
Proof.
  intros Hq Heq HB.
  pose proof n_small as Hn. pose proof T_pos as HT.
  pose proof (Prim2SF_valid q) as Hv. rewrite Hq in Hv.
  destruct (valid_finite _ _ _ Hv) as (_ & Hnorm & _).
  assert (Hdq : Zpos (digits2_pos mq) = 53%Z) by (unfold a in *; lia).
  destruct (digits_bounds mq) as [Hmqlo Hmqhi]. rewrite Hdq in Hmqlo, Hmqhi.
  change (2 ^ (53 - 1))%Z with (2 ^ 52)%Z in Hmqlo.
  set (M := Zpos (mq * pshl lamports_per_sol 23)).
  assert (HM : M = (Zpos mq * 1000000000 * 2 ^ 23)%Z).
  { unfold M. rewrite Pos2Z.inj_mul, lamports_mantissa. ring. }
  assert (HMr : (2 ^ 104 <= M < 2 ^ 106)%Z).
  { rewrite HM. change (2 ^ 104)%Z with (2 ^ 52 * 2 ^ 29 * 2 ^ 23)%Z.
    change (2 ^ 106)%Z with (2 ^ 53 * 2 ^ 30 * 2 ^ 23)%Z.
    change (2 ^ 29)%Z with 536870912%Z. change (2 ^ 30)%Z with 1073741824%Z.
    change (2 ^ 23)%Z with 8388608%Z. nia. }
  assert (HdM : (105 <= Zdigits2 M <= 106)%Z).
  { unfold M at 1 2. cbn [Zdigits2]. fold M. split.
    - destruct (digits_bounds (mq * pshl lamports_per_sol 23)) as [_ H]. fold M in H.
      destruct (Z.le_gt_cases 105 (Zpos (digits2_pos (mq * pshl lamports_per_sol 23))))
        as [H' | H']; [exact H' |].
      assert (2 ^ Zpos (digits2_pos (mq * pshl lamports_per_sol 23)) <= 2 ^ 104)%Z
        by (apply Z.pow_le_mono_r; lia).
      lia.
    - apply digits_le_of_lt_pow; [lia | apply HMr]. }
  destruct (round_nearest false M (eq + -23) loc_Exact M 1
              ltac:(unfold M; lia) ltac:(lia) ltac:(unfold a in *; lia)
              ltac:(unfold a in *; lia) ltac:(lia)
              ltac:(symmetry; apply Z.mul_1_r))
    as (mp & ep & Hr & Hep & HV).
  rewrite Z.mul_1_r in HV.
  assert (Hp : Prim2SF (q * 1e9) = S754_finite false mp ep).
  { rewrite mul_spec, Hq, Prim2SF_1e9. unfold normal.
    rewrite digits_lamports_per_sol. unfold SF64mul, SFmul. cbn [xorb].
    change (Z.to_nat (53 - 30)) with 23%nat. change (0 + 30 - 53)%Z with (-23)%Z.
    exact Hr. }
  (* the product against n, in units of 1 / S *)
  set (K := (2 ^ 53)%Z) in *.
  assert (HK : (1 < K)%Z) by (unfold K; reflexivity).
  set (U := (2 ^ (eq - (a - 83)))%Z) in *.
  assert (HU : (0 < U)%Z) by (apply Z.pow_pos_nonneg; lia).
  set (S := (2 ^ (23 - eq))%Z).
  assert (HS : (0 < S)%Z) by (apply Z.pow_pos_nonneg; unfold a in *; lia).
  assert (HSU : (S * U = 2 ^ 23 * T)%Z).
  { unfold S, U, T. rewrite <- !Z.pow_add_r by (unfold a in *; lia).
    f_equal. lia. }
  set (G := (2 ^ (ep - (eq + -23)))%Z) in *.
  assert (HG : (0 < G)%Z) by (apply Z.pow_pos_nonneg; lia).
  set (V := (Zpos mp * G)%Z) in *.
  set (B := (Zpos mq * U)%Z) in *.
  assert (HMU : (M * U = B * 1000000000 * 2 ^ 23)%Z) by (rewrite HM; unfold B; ring).
  assert (Hup : (V < (Zpos n + 1) * S)%Z).
  { apply (Z.mul_lt_mono_pos_r U); [exact HU |].
    replace ((Zpos n + 1) * S * U)%Z with ((Zpos n + 1) * (S * U))%Z by ring.
    apply (squeeze_upper K); try lia.
    assert (H1 : (K * K * (V * U) <= K * (K + 1) * (M * U))%Z) by nia.
    assert (H2 : (K * (K + 1) * (M * U) <= (K + 1) * (K + 1) * (Zpos n * (S * U)))%Z).
    { rewrite HMU, HSU. nia. }
    lia. }
  assert (Hdown : ((Zpos n - 1) * S <= V)%Z).
  { apply (Z.mul_le_mono_pos_r _ _ U); [exact HU |].
    replace ((Zpos n - 1) * S * U)%Z with ((Zpos n - 1) * (S * U))%Z by ring.
    apply (squeeze_lower K); try lia.
    assert (H1 : (K * (K - 1) * (M * U) <= K * K * (V * U))%Z) by nia.
    assert (H2 : ((K - 1) * (K - 1) * (Zpos n * (S * U)) <= K * (K - 1) * (M * U))%Z).
    { rewrite HMU, HSU. nia. }
    lia. }
  (* the product is below 2^52, so it has a fraction part *)
  pose proof (Prim2SF_valid (q * 1e9)) as Hvp. rewrite Hp in Hvp.
  destruct (valid_finite _ _ _ Hvp) as (_ & Hnormp & _).
  assert (Hneg : (ep < 0)%Z).
  { destruct (Z.lt_ge_cases ep 0) as [H | H]; [exact H | exfalso].
    assert (Hdp : Zpos (digits2_pos mp) = 53%Z) by lia.
    destruct (digits_bounds mp) as [Hmplo _]. rewrite Hdp in Hmplo.
    change (2 ^ (53 - 1))%Z with (2 ^ 52)%Z in Hmplo.
    assert (HGS : (S <= G)%Z).
    { unfold S, G. apply Z.pow_le_mono_r; lia. }
    unfold V in Hup. unfold K in Hn. change (2 ^ 53)%Z with (2 * 2 ^ 52)%Z in Hn.
    nia. }
  set (D := (2 ^ (- ep))%Z).
  assert (HD : (0 < D)%Z) by (apply Z.pow_pos_nonneg; lia).
  assert (HDG : (S = D * G)%Z).
  { unfold S, D, G. rewrite <- Z.pow_add_r by lia. f_equal. lia. }
  assert (Hmp : ((Zpos n - 1) * D <= Zpos mp < (Zpos n + 1) * D)%Z).
  { unfold V in Hup, Hdown. rewrite HDG in Hup, Hdown. split.
    - apply (Z.mul_le_mono_pos_r _ _ G); [exact HG | lia].
    - apply (Z.mul_lt_mono_pos_r G); [exact HG | lia]. }
  exists (floor_of false mp ep).
  assert (HF : (Zpos n - 1 <= floor_of false mp ep < Zpos n + 1)%Z).
  { unfold floor_of. cbn [cond_Zopp]. rewrite Z.shiftr_div_pow2 by lia. fold D.
    split.
    - apply Z.div_le_lower_bound; lia.
    - apply Z.div_lt_upper_bound; lia. }
  split; [| lia].
  apply Prim2SF_inj.
  rewrite (Math_floor_finite _ _ _ _ Hp Hneg), of_Z_of_integer; [reflexivity |].
  unfold K in Hn. lia.
Qed.

(** Whole lamports come back as themselves or one less. *)
Lemma lamports_round_trip :
  solToLamports (lamportsToSol (of_Z (Zpos n))) = of_Z (Zpos n) \/
  solToLamports (lamportsToSol (of_Z (Zpos n))) = of_Z (Zpos n - 1).
Proof.
  destruct div_lamports_nearest as (mq & eq & Hq & Heq & HB).
  destruct (mul_floor_lamports _ _ _ Hq Heq HB) as (F & HF & [-> | ->]).
  - left. exact HF.
  - right. exact HF.
Qed.

End WholeLamports.

(** Whole lamports below 2^52 come back as themselves or one less. *)
Lemma whole_lamports_round_trip (n : Z) :
  (0 <= n < 2 ^ 52)%Z ->
  solToLamports (lamportsToSol (of_Z n)) = of_Z n \/
  solToLamports (lamportsToSol (of_Z n)) = of_Z (n - 1).
Proof.
  intros [Hlo Hhi]. destruct n as [| p | p]; [left; reflexivity | | lia].
  apply lamports_round_trip.
  apply digits_le_of_lt_pow; [lia | exact Hhi].
Qed.

(** *** From SOL to lamports and back *)

Lemma Prim2SF_2_52 :
  Prim2SF 4503599627370496 = S754_finite false 4503599627370496 0.
Proof. reflexivity. Qed.

(** Below 2^52, [solToLamports] returns a zero or a whole number of
    lamports below 2^52. *)
Lemma solToLamports_small sol :
  (0 <=? sol)%float = true ->
  (sol * 1e9 <? 4503599627370496)%float = true ->
  Prim2SF (solToLamports sol) = S754_zero true \/
  exists n, (0 <= n < 2 ^ 52)%Z /\ solToLamports sol = of_Z n.
Proof.
  intros Hpos Hlt. apply mul_1e9_nonneg in Hpos.
  unfold solToLamports. set (z := (sol * 1e9)%float) in *.
  rewrite leb_spec, Prim2SF_zero in Hpos. rewrite ltb_spec, Prim2SF_2_52 in Hlt.
  destruct (Prim2SF z) as [s | s | | s m e] eqn:Hz; try discriminate.
  - replace (Math_floor z) with z by (unfold Math_floor; now rewrite Hz).
    destruct s; [left; exact Hz | right].
    exists 0%Z. split; [lia |]. apply Prim2SF_inj. now rewrite Hz.
  - destruct s; discriminate.
  - destruct s; [discriminate |]. right.
    apply SFltb_pos_inv in Hlt.
    pose proof (Prim2SF_valid z) as Hv. rewrite Hz in Hv.
    destruct (valid_finite _ _ _ Hv) as (Hd & Hnorm & _).
    destruct (digits_bounds m) as [Hmlo Hm].
    assert (H53 : (2 ^ Zpos (digits2_pos m) <= 2 ^ 53)%Z)
      by (apply Z.pow_le_mono_r; lia).
    assert (He : (e < 0)%Z).
    { destruct Hlt as [H | [H H']]; [exact H | exfalso].
      destruct Hnorm as [Hn | Hn]; [| lia].
      rewrite Hn in Hmlo. change (2 ^ (53 - 1))%Z with 4503599627370496%Z in Hmlo.
      lia. }
    exists (floor_of false m e). split.
    + unfold floor_of. cbn [cond_Zopp]. rewrite Z.shiftr_div_pow2 by lia.
      split; [apply Z.div_pos; [lia | apply Z.pow_pos_nonneg; lia] |].
      apply Z.div_lt_upper_bound; [apply Z.pow_pos_nonneg; lia |].
      assert (2 ^ 1 <= 2 ^ (- e))%Z by (apply Z.pow_le_mono_r; lia).
      change (2 ^ 1)%Z with 2%Z in *. change (2 ^ 53)%Z with (2 * 2 ^ 52)%Z in H53.
      nia.
    + apply Prim2SF_inj.
      rewrite (Math_floor_finite _ _ _ _ Hz He), of_Z_of_integer; [reflexivity |].
      pose proof (floor_of_small false m e He Hd) as Hs.
      destruct (floor_of_bounds false m e He) as [_ Hhi].
      assert (0 < 2 ^ (- e))%Z by (apply Z.pow_pos_nonneg; lia).
      cbn [cond_Zopp] in Hhi. split; [nia | lia].
Qed.

(** What comes back from a round trip through lamports is worth the same
    lamports, or one less. *)
Lemma sol_round_trip sol :
  (0 <=? sol)%float = true ->
  (sol * 1e9 <? 4503599627370496)%float = true ->
  let lamports := solToLamports sol in
  solToLamports (lamportsToSol lamports) = lamports \/
  exists n, lamports = of_Z n /\
            solToLamports (lamportsToSol lamports) = of_Z (n - 1).
Proof.
  intros Hpos Hlt lamports.
  destruct (solToLamports_small sol Hpos Hlt) as [Hz | (n & Hn & HL)].
  - left. fold lamports in Hz.
    assert (Hdiv : lamportsToSol lamports = lamports).
    { apply Prim2SF_inj. unfold lamportsToSol.
      rewrite div_spec, Prim2SF_1e9, Hz. reflexivity. }
    rewrite Hdiv. unfold solToLamports at 1.
    assert (Hmul : (lamports * 1e9)%float = lamports).
    { apply Prim2SF_inj. rewrite mul_spec, Prim2SF_1e9, Hz. reflexivity. }
    rewrite Hmul. unfold Math_floor. now rewrite Hz.
  - fold lamports in HL. rewrite HL.
    destruct (whole_lamports_round_trip n Hn) as [H | H]; [left; exact H |].
    right. exists n. split; [reflexivity | exact H].
Qed.

End RoundTrip.

(** From 2^52 lamports on, a round trip can also come back one lamport
    higher. *)
Example round_trip_can_gain_a_lamport :
  solToLamports (lamportsToSol 8527073293399296) = 8527073293399297%float.
Proof. reflexivity. Qed.


